(** * The Ethereum-style transaction envelope of gowaves

    A shallow embedding of [pkg/proto/eth_transaction.go]: the envelope
    codec ([DecodeCanonical], [EncodeCanonical]), the transaction id
    ([GenerateID], [GetID]), the replay-protection predicate ([Protected]),
    the validator ([Validate]), the sender recovery with its cache
    ([Verify], [From], [FromPK]) and the protobuf form
    ([ToProtobufSigned], [UnmarshalSignedFromProtobuf]).

    The method bodies are transcribed from the Go source.  What the source
    file calls but does not define (the RLP library, the three payload
    structs with their accessors, the hash, the unit conversion, the
    signer, the protobuf reader) is either a member of the classes
    [Externals] and [Signing] or a definition marked
    "Modelled from the spec". *)

From Stdlib Require Import ZArith List String Bool Lia.
From Stdlib.Strings Require Import Byte.
Import ListNotations.

Local Open Scope string_scope.
Local Open Scope list_scope.
Local Open Scope Z_scope.

(** ** Go values *)

(** A Go [byte], with its numeric value. *)
Definition byte_val (b : byte) : Z := Z.of_N (Byte.to_N b).

(** The conversion [byte(z)] of a number in range. *)
Definition byte_of (z : Z) : byte :=
  match Byte.of_N (Z.to_N z) with
  | Some b => b
  | None => x00
  end.

(** [len] of a slice. *)
Definition len {A : Type} (s : list A) : Z := Z.of_nat (List.length s).

(** [*big.Int] values are unbounded integers. [BitLen], [Uint64] and
    [IsInt64] follow math/big: the first two read the absolute value. *)
Definition BitLen (x : Z) : Z :=
  if x =? 0 then 0 else Z.log2 (Z.abs x) + 1.

Definition Uint64 (x : Z) : Z := Z.abs x mod 2 ^ 64.

Definition IsInt64 (x : Z) : bool :=
  (- 2 ^ 63 <=? x) && (x <? 2 ^ 63).

Definition Cmp (x y : Z) : Z :=
  match x ?= y with
  | Lt => -1
  | Eq => 0
  | Gt => 1
  end.

Definition big0 : Z := 0.

Definition copyBigInt (x : Z) : Z := x.

(** ** Errors

    A Go [error] is one of the values the file builds: [errors.New],
    [errors.Wrap]/[Wrapf] around a cause, and the three constructors of the
    [errs] package used by [Validate].  Texts built at run time are kept
    symbolic: a format with its arguments, or the [Error()] text of another
    error. *)

Inductive fmt_arg : Type :=
| IntArg (z : Z)
| StrArg (s : string).

Inductive error : Type :=
| errors_New (msg : text)
| errors_Wrap (cause : error) (msg : text)
| NewTxValidationError (msg : text)
| NewFeeValidation (msg : text)
| NewNonPositiveAmount (amount : Z) (asset : string)
with text : Type :=
| Lit (s : string)
| Sprintf (format : string) (args : list fmt_arg)
| ErrorText (e : error).

Definition errors_Wrapf (cause : error) (format : string)
    (args : list fmt_arg) : error :=
  errors_Wrap cause (Sprintf format args).

(** [errors.Cause]: the innermost error of a chain of wraps. *)
Fixpoint errors_Cause (e : error) : error :=
  match e with
  | errors_Wrap cause _ => errors_Cause cause
  | _ => e
  end.

Definition ErrInvalidSig : error :=
  errors_New (Lit "invalid transaction v, r, s values").

Definition ErrTxTypeNotSupported : error :=
  errors_New (Lit "transaction type not supported").

(** A Go result pair [(value, error)] of which exactly one is set. *)
Inductive result (A : Type) : Type :=
| Success (a : A)
| Failure (e : error).
Arguments Success {A} a.
Arguments Failure {A} e.

(** ** The transaction type tag *)

Definition EthereumTxType : Type := byte.

Definition EthereumLegacyTxType : EthereumTxType := x00.
Definition EthereumAccessListTxType : EthereumTxType := x01.
Definition EthereumDynamicFeeTxType : EthereumTxType := x02.

Definition EthereumTxType_String (e : EthereumTxType) : string :=
  if Byte.eqb e EthereumLegacyTxType then "EthereumLegacyTxType"
  else if Byte.eqb e EthereumAccessListTxType then "EthereumAccessListTxType"
  else if Byte.eqb e EthereumDynamicFeeTxType then "EthereumDynamicFeeTxType"
  else "".

(** ** The three payload shapes *)

Definition EthereumAddress : Type := list byte.
Definition EthereumAccessList : Type :=
  list (EthereumAddress * list (list byte)).
Definition Digest : Type := list byte.
Definition EthereumPublicKey : Type := list byte.
Definition Scheme : Type := Z.

(** Modelled from the spec: the struct [EthereumLegacyTx] is declared
    outside src/.  Section 4.2 lists its fields as
    [nonce, gasPrice, gasLimit, to, value, data, v, r, s]; the recipient is
    optional (section 3), and [Protected] tests [V] against nil. *)
Module EthereumLegacyTx.
Record t : Type := {
  Nonce : Z;
  GasPrice : Z;
  Gas : Z;
  To : option EthereumAddress;
  Value : Z;
  Data : list byte;
  V : option Z;
  R : Z;
  S : Z
}.
End EthereumLegacyTx.

(** Modelled from the spec: the struct [EthereumAccessListTx] is declared
    outside src/.  Section 4.2: [chainId, nonce, gasPrice, gasLimit, to,
    value, data, accessList] and the signature triple. *)
Module EthereumAccessListTx.
Record t : Type := {
  ChainID : Z;
  Nonce : Z;
  GasPrice : Z;
  Gas : Z;
  To : option EthereumAddress;
  Value : Z;
  Data : list byte;
  AccessList : EthereumAccessList;
  V : Z;
  R : Z;
  S : Z
}.
End EthereumAccessListTx.

(** Modelled from the spec: the struct [EthereumDynamicFeeTx] is declared
    outside src/.  Section 4.2: the access-list layout with the single gas
    price replaced by [gasTipCap, gasFeeCap]. *)
Module EthereumDynamicFeeTx.
Record t : Type := {
  ChainID : Z;
  Nonce : Z;
  GasTipCap : Z;
  GasFeeCap : Z;
  Gas : Z;
  To : option EthereumAddress;
  Value : Z;
  Data : list byte;
  AccessList : EthereumAccessList;
  V : Z;
  R : Z;
  S : Z
}.
End EthereumDynamicFeeTx.

(** The interface [EthereumTxData] has exactly these three implementations. *)
Inductive EthereumTxData : Type :=
| LegacyTx (tx : EthereumLegacyTx.t)
| AccessListTx (tx : EthereumAccessListTx.t)
| DynamicFeeTx (tx : EthereumDynamicFeeTx.t).

Definition ethereumTxType (d : EthereumTxData) : EthereumTxType :=
  match d with
  | LegacyTx _ => EthereumLegacyTxType
  | AccessListTx _ => EthereumAccessListTxType
  | DynamicFeeTx _ => EthereumDynamicFeeTxType
  end.

Definition isProtectedV (V : Z) : bool :=
  if BitLen V <=? 8 then
    let v := Uint64 V in
    negb (v =? 27) && negb (v =? 28) && negb (v =? 1) && negb (v =? 0)
  else
    (* anything not 27 or 28 is considered protected *)
    true.

(** Modelled from the spec: [deriveChainId] is defined outside src/.
    Section 3: the chain id is recovered from the legacy [v] by
    [v = 2 * chainID + 35] or [36]; the comment of [ChainId] in the source
    adds that a legacy transaction which is not replay-protected has chain
    id zero. *)
Definition deriveChainId (v : Z) : Z :=
  if isProtectedV v then (v - 35) / 2 else 0.

(** Modelled from the spec: the accessors of the three structs are defined
    outside src/.  Section 4.2: each reads its logical field; the chain id
    of the legacy shape comes from [v], its access list is empty, and the
    dynamic-fee shape answers its fee cap for the gas price. *)
Definition chainID (d : EthereumTxData) : Z :=
  match d with
  | LegacyTx tx =>
      match EthereumLegacyTx.V tx with
      | Some v => deriveChainId v
      | None => 0
      end
  | AccessListTx tx => EthereumAccessListTx.ChainID tx
  | DynamicFeeTx tx => EthereumDynamicFeeTx.ChainID tx
  end.

Definition accessList (d : EthereumTxData) : EthereumAccessList :=
  match d with
  | LegacyTx _ => []
  | AccessListTx tx => EthereumAccessListTx.AccessList tx
  | DynamicFeeTx tx => EthereumDynamicFeeTx.AccessList tx
  end.

Definition data (d : EthereumTxData) : list byte :=
  match d with
  | LegacyTx tx => EthereumLegacyTx.Data tx
  | AccessListTx tx => EthereumAccessListTx.Data tx
  | DynamicFeeTx tx => EthereumDynamicFeeTx.Data tx
  end.

Definition gas (d : EthereumTxData) : Z :=
  match d with
  | LegacyTx tx => EthereumLegacyTx.Gas tx
  | AccessListTx tx => EthereumAccessListTx.Gas tx
  | DynamicFeeTx tx => EthereumDynamicFeeTx.Gas tx
  end.

Definition gasPrice (d : EthereumTxData) : Z :=
  match d with
  | LegacyTx tx => EthereumLegacyTx.GasPrice tx
  | AccessListTx tx => EthereumAccessListTx.GasPrice tx
  | DynamicFeeTx tx => EthereumDynamicFeeTx.GasFeeCap tx
  end.

Definition value (d : EthereumTxData) : Z :=
  match d with
  | LegacyTx tx => EthereumLegacyTx.Value tx
  | AccessListTx tx => EthereumAccessListTx.Value tx
  | DynamicFeeTx tx => EthereumDynamicFeeTx.Value tx
  end.

Definition nonce (d : EthereumTxData) : Z :=
  match d with
  | LegacyTx tx => EthereumLegacyTx.Nonce tx
  | AccessListTx tx => EthereumAccessListTx.Nonce tx
  | DynamicFeeTx tx => EthereumDynamicFeeTx.Nonce tx
  end.

Definition to (d : EthereumTxData) : option EthereumAddress :=
  match d with
  | LegacyTx tx => EthereumLegacyTx.To tx
  | AccessListTx tx => EthereumAccessListTx.To tx
  | DynamicFeeTx tx => EthereumDynamicFeeTx.To tx
  end.

(** Modelled from the spec: the constant [ethereumGWei] is declared outside
    src/.  Section 4.5, rule 8, gives the required price as 10 x 10^9. *)
Definition ethereumGWei : Z := 1000000000.

(** EthereumGasPrice is a constant GasPrice which equals 10GWei according
    to the specification. *)
Definition EthereumGasPrice : Z := 10 * ethereumGWei.

(** ** What the file takes from outside *)

(** The functions that [eth_transaction.go] calls and that are defined
    neither in it nor in the spec in enough detail: the [fastrlp] parser and
    serializer, the RLP hooks of the three structs, the hash of the
    transaction id and the wei-to-wavelet conversion. *)
Class Externals : Type := {
  fastrlp_Value : Type;
  Parse : list byte -> result fastrlp_Value;
  MarshalTo : fastrlp_Value -> list byte -> list byte;
  marshalToFastRLP : EthereumTxData -> fastrlp_Value;
  unmarshalFromFastRLP : fastrlp_Value -> result EthereumLegacyTx.t;
  AccessListTx_DecodeRLP : list byte -> result EthereumAccessListTx.t;
  DynamicFeeTx_DecodeRLP : list byte -> result EthereumDynamicFeeTx.t;
  Keccak256EthereumHash : list byte -> Digest;
  EthereumWeiToWavelet : Z -> result Z
}.

(** ** The envelope and its methods *)

Record EthereumTransaction : Type := {
  inner : option EthereumTxData;
  innerBinarySize : Z;
  id : option Digest;
  senderPK : option EthereumPublicKey
}.

(** A method with receiver [tx *EthereumTransaction] reads and writes the
    envelope it is called on; [None] is a run-time panic (an index out of
    range, a call through the nil [inner]). *)
Definition M (A : Type) : Type :=
  EthereumTransaction -> option (A * EthereumTransaction).

Definition ret {A : Type} (a : A) : M A := fun tx => Some (a, tx).

Definition bind {A B : Type} (m : M A) (f : A -> M B) : M B :=
  fun tx =>
    match m tx with
    | Some (a, tx') => f a tx'
    | None => None
    end.

Definition panic {A : Type} : M A := fun _ => None.

Definition get : M EthereumTransaction := fun tx => Some (tx, tx).

Definition put (tx' : EthereumTransaction) : M unit :=
  fun _ => Some (tt, tx').

Notation "x <- c1 ;; c2" := (bind c1 (fun x => c2))
  (at level 61, c1 at next level, right associativity).
Notation "c1 ;;; c2" := (bind c1 (fun _ => c2))
  (at level 61, right associativity).

(** [s[i]], which panics out of range. *)
Definition index {A : Type} (s : list A) (i : nat) : M A :=
  match nth_error s i with
  | Some a => ret a
  | None => panic
  end.

(** [tx.inner], for a method call through the interface. *)
Definition the_inner : M EthereumTxData :=
  tx <- get ;;
  match inner tx with
  | Some d => ret d
  | None => panic
  end.

Definition set_inner (d : EthereumTxData) : M unit :=
  tx <- get ;;
  put {| inner := Some d;
         innerBinarySize := innerBinarySize tx;
         id := id tx;
         senderPK := senderPK tx |}.

Definition set_innerBinarySize (n : Z) : M unit :=
  tx <- get ;;
  put {| inner := inner tx;
         innerBinarySize := n;
         id := id tx;
         senderPK := senderPK tx |}.

Definition set_id (d : Digest) : M unit :=
  tx <- get ;;
  put {| inner := inner tx;
         innerBinarySize := innerBinarySize tx;
         id := Some d;
         senderPK := senderPK tx |}.

(** The read accessors of the envelope. *)
Definition TxType : M EthereumTxType :=
  d <- the_inner ;; ret (ethereumTxType d).

Definition ChainId : M Z := d <- the_inner ;; ret (chainID d).
Definition Data : M (list byte) := d <- the_inner ;; ret (data d).
Definition AccessList : M EthereumAccessList :=
  d <- the_inner ;; ret (accessList d).
Definition Gas : M Z := d <- the_inner ;; ret (gas d).
Definition GasPrice : M Z := d <- the_inner ;; ret (copyBigInt (gasPrice d)).
Definition Value : M Z := d <- the_inner ;; ret (copyBigInt (value d)).
Definition Nonce : M Z := d <- the_inner ;; ret (nonce d).
Definition To : M (option EthereumAddress) := d <- the_inner ;; ret (to d).

(** Protected says whether the transaction is replay-protected. *)
Definition Protected : M bool :=
  tx <- get ;;
  match inner tx with
  | Some (LegacyTx ltx) =>
      ret (match EthereumLegacyTx.V ltx with
           | Some v => isProtectedV v
           | None => false
           end)
  | _ => ret true
  end.

Section Methods.
Context {ext : Externals}.

(** decodeTypedCanonical decodes a typed transaction from the canonical
    format. *)
Definition decodeTypedCanonical (canonicalData : list byte)
    : M (result EthereumTxData) :=
  if len canonicalData =? 0 then
    ret (Failure (errors_New (Lit "empty typed transaction bytes")))
  else
    txType <- index canonicalData 0 ;;
    let rlpData := skipn 1 canonicalData in
    if Byte.eqb txType EthereumAccessListTxType then
      match AccessListTx_DecodeRLP rlpData with
      | Failure err =>
          ret (Failure (errors_Wrapf err
            "failed to unmarshal ethereum tx from RLP, ethereumTxType %q"
            [StrArg (EthereumTxType_String EthereumAccessListTxType)]))
      | Success inner => ret (Success (AccessListTx inner))
      end
    else if Byte.eqb txType EthereumDynamicFeeTxType then
      match DynamicFeeTx_DecodeRLP rlpData with
      | Failure err =>
          ret (Failure (errors_Wrapf err
            "failed to unmarshal ethereum tx from RLP, ethereumTxType %q"
            [StrArg (EthereumTxType_String EthereumDynamicFeeTxType)]))
      | Success inner => ret (Success (DynamicFeeTx inner))
      end
    else
      ret (Failure ErrTxTypeNotSupported).

(** DecodeCanonical decodes the canonical binary encoding of transactions.
    It supports legacy RLP transactions and EIP2718 typed transactions.
    The result is the returned [error], [None] for nil. *)
Definition DecodeCanonical (canonicalData : list byte) : M (option error) :=
  isLegacy <- (if 0 <? len canonicalData
               then b <- index canonicalData 0 ;; ret (0x7f <? byte_val b)
               else ret false) ;;
  if isLegacy then
    (* It's a legacy transaction. *)
    match Parse canonicalData with
    | Failure err =>
        ret (Some (errors_Wrap err
          (Lit "failed to parse canonical representation as RLP")))
    | Success value =>
        match unmarshalFromFastRLP value with
        | Failure err =>
            ret (Some (errors_Wrapf err
              "failed to unmarshal from RLP ethereum legacy transaction, ethereumTxType %q"
              [StrArg (EthereumTxType_String EthereumLegacyTxType)]))
        | Success inner =>
            set_inner (LegacyTx inner) ;;;
            set_innerBinarySize (len canonicalData) ;;;
            ret None
        end
    end
  else
    (* It's an EIP2718 typed transaction envelope. *)
    r <- decodeTypedCanonical canonicalData ;;
    match r with
    | Failure err =>
        ret (Some (errors_Wrap err
          (Lit "failed to unmarshal from canonical representation ethereum typed transaction")))
    | Success inner =>
        set_inner inner ;;;
        set_innerBinarySize (len canonicalData) ;;;
        ret None
    end.

(** encodeTypedCanonical returns the canonical encoding of a typed
    transaction. *)
Definition encodeTypedCanonical : M (list byte) :=
  d <- the_inner ;;
  let typedTxVal := marshalToFastRLP d in
  let canonicalMarshaled : list byte := [] in
  ty <- TxType ;;
  let canonicalMarshaled := canonicalMarshaled ++ [ty] in
  let canonicalMarshaled := MarshalTo typedTxVal canonicalMarshaled in
  ret canonicalMarshaled.

(** EncodeCanonical returns the canonical binary encoding of a transaction.
    For legacy transactions, it returns the RLP encoding. For EIP-2718
    typed transactions, it returns the type and payload. *)
Definition EncodeCanonical : M (list byte * option error) :=
  ty <- TxType ;;
  canonical <- (if Byte.eqb ty EthereumLegacyTxType then
                  d <- the_inner ;;
                  let fastrlpTx := marshalToFastRLP d in
                  ret (MarshalTo fastrlpTx [])
                else
                  encodeTypedCanonical) ;;
  ret (canonical, None).

Definition GenerateID (_ : Scheme) : M (option error) :=
  tx <- get ;;
  match id tx with
  | Some _ => ret None
  | None =>
      r <- EncodeCanonical ;;
      match r with
      | (_, Some err) => ret (Some err)
      | (body, None) =>
          let id := Keccak256EthereumHash body in
          set_id id ;;;
          ret None
      end
  end.

Definition GetID (scheme : Scheme) : M (result (list byte)) :=
  tx <- get ;;
  r <- (match id tx with
        | None => GenerateID scheme
        | Some _ => ret None
        end) ;;
  match r with
  | Some err => ret (Failure err)
  | None =>
      tx <- get ;;
      match id tx with
      | Some d => ret (Success d)
      | None => panic
      end
  end.

(** Validate performs basic checks for EthereumTransaction according to the
    specification.  This method doesn't include signature verification.
    On success the Go method returns its receiver. *)
Definition Validate (scheme : Scheme) : M (result EthereumTransaction) :=
  (* same chainID *)
  chainId <- ChainId ;;
  if negb (Cmp chainId scheme =? 0) then
    chainId' <- ChainId ;;
    let txChainID := Uint64 chainId' in
    ret (Failure (NewTxValidationError (Sprintf
      "Address belongs to another network: expected: %d(%c), actual: %d(%c)"
      [IntArg scheme; IntArg scheme; IntArg txChainID; IntArg txChainID])))
  else
  (* accept only EthereumLegacyTxType (this check doesn't exist in scala) *)
  ty <- TxType ;;
  if negb (Byte.eqb ty EthereumLegacyTxType) then
    ret (Failure (NewTxValidationError
      (Lit "the ethereum transaction's type is not legacy tx")))
  else
  (* max size of EthereumTransaction is 1Mb *)
  tx <- get ;;
  if 1024 * 1024 <? innerBinarySize tx then
    ret (Failure (NewTxValidationError (Lit "too big size of transaction")))
  else
  (* insufficient fee *)
  g <- Gas ;;
  if g <=? 0 then
    ret (Failure (NewFeeValidation (Lit "insufficient fee")))
  else
  (* too many waves (this check doesn't exist in scala) *)
  v <- Value ;;
  match EthereumWeiToWavelet v with
  | Failure err => ret (Failure (NewFeeValidation (ErrorText err)))
  | Success wavelets =>
  (* non positive amount *)
  if wavelets <? 0 then
    ret (Failure (NewNonPositiveAmount wavelets "waves"))
  else
  (* a cancel transaction: value == 0 && data == 0x *)
  v <- Value ;;
  isCancel <- (if Cmp v big0 =? 0
               then d <- Data ;; ret (len d =? 0)
               else ret false) ;;
  if isCancel then
    ret (Failure (NewTxValidationError
      (Lit "Transaction cancellation is not supported")))
  else
  (* either data or value field is set *)
  v <- Value ;;
  isBoth <- (if negb (Cmp v big0 =? 0)
             then d <- Data ;; ret (negb (len d =? 0))
             else ret false) ;;
  if isBoth then
    ret (Failure (NewTxValidationError
      (Lit "Transaction should have either data or value")))
  else
  (* gasPrice == 10GWei *)
  p <- GasPrice ;;
  if negb (Cmp p EthereumGasPrice =? 0) then
    ret (Failure (NewTxValidationError (Lit "Gas price must be 10 Gwei")))
  else
  (* deny a contract creation transaction *)
  t <- To ;;
  match t with
  | None =>
    ret (Failure (NewTxValidationError
      (Lit "Contract creation transaction is not supported")))
  | Some _ =>
  (* positive timestamp (this check doesn't exist in scala) *)
  n <- Nonce ;;
  if n <=? 0 then
    ret (Failure (NewTxValidationError (Lit "invalid timestamp")))
  else
    tx <- get ;;
    ret (Success tx)
  end
  end.

End Methods.

(** ** Sender recovery and the protobuf form *)

(** A decoded [Transaction] of the node: an Ethereum envelope, or a
    transaction of another Go type, kept as the name [%T] prints. *)
Inductive Transaction : Type :=
| EthereumTransactionPtr (ethTx : EthereumTransaction)
| OtherTransaction (goType : string).

(** The generated [g.SignedTransaction]; of the alternatives of its
    [Transaction] field the file builds the Ethereum one. *)
Module g.
Inductive isSignedTransaction_Transaction : Type :=
| SignedTransaction_EthereumTransaction (canonical : list byte).

Record SignedTransaction : Type := {
  Transaction : option isSignedTransaction_Transaction;
  Proofs : list (list byte)
}.
End g.

(** What the sender recovery and the protobuf reader take from outside: the
    signer made for a chain id with its key recovery, which reads the
    envelope it is given and answers a key or an error, the address of a
    key, and the reader of signed transactions. *)
Class Signing : Type := {
  EthereumSigner : Type;
  MakeEthereumSigner : Z -> EthereumSigner;
  SenderPK : EthereumSigner -> EthereumTransaction -> result EthereumPublicKey;
  PK_EthereumAddress : EthereumPublicKey -> EthereumAddress;
  SignedTxFromProtobuf : list byte -> result Transaction
}.

Definition errors_Errorf (format : string) (args : list fmt_arg) : error :=
  errors_New (Sprintf format args).

(** In scala node this is "gasLimit" field. *)
Definition GetFee : M Z := Gas.

Definition GetTimestamp : M Z := Nonce.

Definition threadSafeGetSenderPK : M (option EthereumPublicKey) :=
  tx <- get ;;
  match senderPK tx with
  | Some pk => ret (Some pk)
  | None => ret None
  end.

Definition threadSafeSetSenderPK (pk : EthereumPublicKey) : M unit :=
  tx <- get ;;
  put {| inner := inner tx;
         innerBinarySize := innerBinarySize tx;
         id := id tx;
         senderPK := Some pk |}.

Section Identity.
Context {ext : Externals} {sgn : Signing}.

(** Verify performs ONLY transaction signature verification and calculates
    EthereumPublicKey of transaction. *)
Definition Verify : M (result EthereumPublicKey) :=
  stored <- threadSafeGetSenderPK ;;
  match stored with
  | Some pk => ret (Success pk)
  | None =>
      chainId <- ChainId ;;
      let signer := MakeEthereumSigner chainId in
      tx <- get ;;
      match SenderPK signer tx with
      | Failure err =>
          ret (Failure (errors_Wrap err
            (Lit "failed to verify EthereumTransaction")))
      | Success pk =>
          threadSafeSetSenderPK pk ;;;
          ret (Success pk)
      end
  end.

(** From returns the sender address of the transaction. *)
Definition From : M (result EthereumAddress) :=
  r <- Verify ;;
  match r with
  | Failure err => ret (Failure err)
  | Success pk => ret (Success (PK_EthereumAddress pk))
  end.

(** FromPK returns the sender public key of the transaction; the copy of a
    key is the key. *)
Definition FromPK : M (result EthereumPublicKey) :=
  r <- Verify ;;
  match r with
  | Failure err => ret (Failure err)
  | Success pk => ret (Success pk)
  end.

Definition GetSender (_ : Scheme) : M (result EthereumAddress) := From.

Definition MerkleBytes (_ : Scheme) : M (list byte * option error) :=
  EncodeCanonical.

Definition ToProtobufSigned (_ : Scheme) : M (result g.SignedTransaction) :=
  r <- EncodeCanonical ;;
  match r with
  | (_, Some err) =>
      ty <- TxType ;;
      ret (Failure (errors_Wrapf err
        "failed to marshal binary EthereumTransaction, type %q"
        [StrArg (EthereumTxType_String ty)]))
  | (canonical, None) =>
      let signed :=
        {| g.Transaction :=
             Some (g.SignedTransaction_EthereumTransaction canonical);
           g.Proofs := [] |} in
      ret (Success signed)
  end.

Definition UnmarshalSignedFromProtobuf (bytes : list byte)
    : M (option error) :=
  match SignedTxFromProtobuf bytes with
  | Failure err =>
      ret (Some (errors_Wrap err
        (Lit "failed to unmarshal from protobuf ethereum transaction")))
  | Success t =>
      match t with
      | OtherTransaction goType =>
          ret (Some (errors_Errorf
            "failed to cast unmarshalled result '%T' to '*EthereumTransaction' type"
            [StrArg goType]))
      | EthereumTransactionPtr ethTx =>
          put ethTx ;;;
          ret None
      end
  end.

End Identity.

(** * Specification

    The vocabulary in which the properties below are stated: the outcomes
    of the two decoding branches, the rules of the validator with their
    errors, and the canonical bytes of a payload. *)

Section Specification.
Context {ext : Externals}.

Definition wrapTyped (e : error) : error :=
  errors_Wrap e (Lit
    "failed to unmarshal from canonical representation ethereum typed transaction").

(** The envelope after a successful decode: the payload and the length of
    the input are recorded, the two caches are as they were. *)
Definition decoded (tx : EthereumTransaction) (d : EthereumTxData)
    (canonicalData : list byte) : EthereumTransaction :=
  {| inner := Some d;
     innerBinarySize := len canonicalData;
     id := id tx;
     senderPK := senderPK tx |}.

(** The ten rules of section 4.5 in the order of the list, each as the
    condition under which it passes and the error the source reports when
    it does not.  Rules 1 to 4 are checked before the value is converted,
    rules 5 to 10 on the converted amount. *)
Definition errChainMismatch (scheme : Scheme) (d : EthereumTxData) : error :=
  NewTxValidationError (Sprintf
    "Address belongs to another network: expected: %d(%c), actual: %d(%c)"
    [IntArg scheme; IntArg scheme;
     IntArg (Uint64 (chainID d)); IntArg (Uint64 (chainID d))]).

Definition errNotLegacy : error :=
  NewTxValidationError (Lit "the ethereum transaction's type is not legacy tx").

Definition errOversized : error :=
  NewTxValidationError (Lit "too big size of transaction").

Definition errInsufficientFee : error :=
  NewFeeValidation (Lit "insufficient fee").

Definition errCancellation : error :=
  NewTxValidationError (Lit "Transaction cancellation is not supported").

Definition errDataAndValue : error :=
  NewTxValidationError (Lit "Transaction should have either data or value").

Definition errGasPrice : error :=
  NewTxValidationError (Lit "Gas price must be 10 Gwei").

Definition errContractCreation : error :=
  NewTxValidationError (Lit "Contract creation transaction is not supported").

Definition errTimestamp : error :=
  NewTxValidationError (Lit "invalid timestamp").

Definition rules_1_to_4 (scheme : Scheme) (tx : EthereumTransaction)
    (d : EthereumTxData) : list (bool * error) :=
  [ (chainID d =? scheme, errChainMismatch scheme d);
    (Byte.eqb (ethereumTxType d) EthereumLegacyTxType, errNotLegacy);
    (innerBinarySize tx <=? 1024 * 1024, errOversized);
    (0 <? gas d, errInsufficientFee) ].

Definition rules_5_to_10 (d : EthereumTxData) (wavelets : Z)
    : list (bool * error) :=
  [ (0 <=? wavelets, NewNonPositiveAmount wavelets "waves");
    (negb ((value d =? 0) && (len (data d) =? 0)), errCancellation);
    (negb (negb (value d =? 0) && negb (len (data d) =? 0)), errDataAndValue);
    (gasPrice d =? EthereumGasPrice, errGasPrice);
    (match to d with Some _ => true | None => false end, errContractCreation);
    (0 <? nonce d, errTimestamp) ].

(** The error of the first rule of the list that does not pass. *)
Fixpoint first_failure (rules : list (bool * error)) : option error :=
  match rules with
  | [] => None
  | (true, _) :: rest => first_failure rest
  | (false, e) :: _ => Some e
  end.

Definition all_pass (rules : list (bool * error)) : Prop :=
  first_failure rules = None.

(** The result of the legacy branch on the whole input. *)
Definition legacyRoute (canonicalData : list byte) (tx : EthereumTransaction)
    : option (option error * EthereumTransaction) :=
  match Parse canonicalData with
  | Failure err =>
      Some (Some (errors_Wrap err
        (Lit "failed to parse canonical representation as RLP")), tx)
  | Success v =>
      match unmarshalFromFastRLP v with
      | Failure err =>
          Some (Some (errors_Wrapf err
            "failed to unmarshal from RLP ethereum legacy transaction, ethereumTxType %q"
            [StrArg (EthereumTxType_String EthereumLegacyTxType)]), tx)
      | Success l => Some (None, decoded tx (LegacyTx l) canonicalData)
      end
  end.

(** The result of the typed branch, given what the variant's decoder made
    of the bytes after the tag. *)
Definition typedRoute (tag : EthereumTxType) (r : result EthereumTxData)
    (canonicalData : list byte) (tx : EthereumTransaction)
    : option (option error * EthereumTransaction) :=
  match r with
  | Failure err =>
      Some (Some (wrapTyped (errors_Wrapf err
        "failed to unmarshal ethereum tx from RLP, ethereumTxType %q"
        [StrArg (EthereumTxType_String tag)])), tx)
  | Success d => Some (None, decoded tx d canonicalData)
  end.

Definition asAccessList (r : result EthereumAccessListTx.t)
    : result EthereumTxData :=
  match r with
  | Success a => Success (AccessListTx a)
  | Failure err => Failure err
  end.

Definition asDynamicFee (r : result EthereumDynamicFeeTx.t)
    : result EthereumTxData :=
  match r with
  | Success f => Success (DynamicFeeTx f)
  | Failure err => Failure err
  end.

(** The bytes [EncodeCanonical] answers for a payload: the serialized list
    for the legacy shape, the tag followed by the serialized list for the
    typed shapes. *)
Definition canonical (d : EthereumTxData) : list byte :=
  if Byte.eqb (ethereumTxType d) EthereumLegacyTxType
  then MarshalTo (marshalToFastRLP d) []
  else MarshalTo (marshalToFastRLP d) [ethereumTxType d].

(** The envelope with the id cache filled. *)
Definition cached (tx : EthereumTransaction) (h : Digest)
    : EthereumTransaction :=
  {| inner := inner tx;
     innerBinarySize := innerBinarySize tx;
     id := Some h;
     senderPK := senderPK tx |}.
End Specification.

(** The envelope with the sender cache filled. *)
Definition keyed (tx : EthereumTransaction) (pk : EthereumPublicKey)
    : EthereumTransaction :=
  {| inner := inner tx;
     innerBinarySize := innerBinarySize tx;
     id := id tx;
     senderPK := Some pk |}.

(** What the round trip needs from the serializer and the decoders of the
    payload shapes, for the payloads that satisfy [valid]: the serializer
    appends to its destination, a serialized legacy payload starts with a
    byte above 0x7f, and each decoder inverts the serializer. *)
Class CodecLaws (ext : Externals) (valid : EthereumTxData -> Prop) : Prop := {
  MarshalTo_appends :
    forall v dst, MarshalTo v dst = dst ++ MarshalTo v [];
  legacy_leading_byte :
    forall l, valid (LegacyTx l) ->
      exists b rest,
        MarshalTo (marshalToFastRLP (LegacyTx l)) [] = b :: rest /\
        0x7f < byte_val b;
  legacy_round_trip :
    forall l, valid (LegacyTx l) ->
      exists v,
        Parse (MarshalTo (marshalToFastRLP (LegacyTx l)) []) = Success v /\
        unmarshalFromFastRLP v = Success l;
  accessList_round_trip :
    forall a, valid (AccessListTx a) ->
      AccessListTx_DecodeRLP (MarshalTo (marshalToFastRLP (AccessListTx a)) [])
        = Success a;
  dynamicFee_round_trip :
    forall f, valid (DynamicFeeTx f) ->
      DynamicFeeTx_DecodeRLP (MarshalTo (marshalToFastRLP (DynamicFeeTx f)) [])
        = Success f
}.

(** * A model of what the file takes from outside

    The canonical byte format of section 4.1 with the field layouts of
    section 4.2, the hash of section 4.4 and the unit conversion of
    section 4.5.  It shows that the assumptions made on [Externals] can be
    met, and gives the concrete envelopes of the examples. *)

#[local] Set Warnings "-register-all".

(** ** A model of what the file takes from outside *)

Module Model.

(** Modelled from the spec: the [fastrlp] value tree.  Section 4.1: the
    canonical byte format encodes ordered lists of byte strings and nested
    lists. *)
Inductive Value : Type :=
| Bytes (b : list byte)
| Array (elems : list Value).

(** Modelled from the spec: section 4.1, every integer is serialized as
    its minimal big-endian byte representation with no leading zero byte,
    and zero is the zero-length byte string. *)
Fixpoint be_digits (fuel : nat) (n : Z) (acc : list byte) : list byte :=
  match fuel with
  | O => acc
  | S fuel' =>
      if n <=? 0 then acc
      else be_digits fuel' (n / 256) (byte_of (n mod 256) :: acc)
  end.

Definition be_bytes (n : Z) : list byte :=
  be_digits (S (Z.to_nat (Z.log2 n))) n [].

Definition be_value (bs : list byte) : Z :=
  fold_left (fun acc b => acc * 256 + byte_val b) bs 0.

(** Modelled from the spec: section 4.1, a recursive length-prefixed
    encoding.  The prefix byte tells a byte string (from 0x80) from a list
    (from 0xc0) and holds the payload length up to 55; a longer payload
    has its length written after the prefix as a big-endian integer.  A
    single byte below 0x80 is its own encoding. *)
Definition header (base : Z) (n : Z) : list byte :=
  if n <=? 55 then [byte_of (base + n)]
  else byte_of (base + 55 + len (be_bytes n)) :: be_bytes n.

Fixpoint encode (v : Value) : list byte :=
  match v with
  | Bytes bs =>
      match bs with
      | [b] => if byte_val b <? 0x80 then [b] else header 0x80 1 ++ bs
      | _ => header 0x80 (len bs) ++ bs
      end
  | Array elems =>
      let payload := flat_map encode elems in
      header 0xc0 (len payload) ++ payload
  end.

(** Whether a value is a list, and the bytes that follow its prefix. *)
Definition is_list (v : Value) : bool :=
  match v with
  | Bytes _ => false
  | Array _ => true
  end.

Definition payload (v : Value) : list byte :=
  match v with
  | Bytes bs => bs
  | Array elems => flat_map encode elems
  end.

Definition MarshalTo (v : Value) (dst : list byte) : list byte :=
  dst ++ encode v.

Definition FormatError : error :=
  errors_New (Lit "malformed canonical bytes").

Definition take (n : Z) (bs : list byte) : option (list byte * list byte) :=
  if (0 <=? n) && (n <=? len bs)
  then Some (firstn (Z.to_nat n) bs, skipn (Z.to_nat n) bs)
  else None.

(** A payload whose length is written out: the length has no leading
    zero and is above 55, or the encoding is not canonical. *)
Definition long_payload (ll : Z) (rest : list byte)
    : option (list byte * list byte) :=
  match take ll rest with
  | Some (c :: lenbytes, rest') =>
      if byte_val c =? 0 then None
      else
        let n := be_value (c :: lenbytes) in
        if n <=? 55 then None else take n rest'
  | _ => None
  end.

(** The item at the front of the input: whether it is a list, its
    payload, and the input after it. *)
Definition parse_header (bs : list byte)
    : option (bool * list byte * list byte) :=
  match bs with
  | [] => None
  | b :: rest =>
      let x := byte_val b in
      if x <? 0x80 then Some (false, [b], rest)
      else if x <? 0xb8 then
        match take (x - 0x80) rest with
        | Some ([c], rest') =>
            if byte_val c <? 0x80 then None else Some (false, [c], rest')
        | Some (payload, rest') => Some (false, payload, rest')
        | None => None
        end
      else if x <? 0xc0 then
        match long_payload (x - 0xb7) rest with
        | Some (payload, rest') => Some (false, payload, rest')
        | None => None
        end
      else if x <? 0xf8 then
        match take (x - 0xc0) rest with
        | Some (payload, rest') => Some (true, payload, rest')
        | None => None
        end
      else
        match long_payload (x - 0xf7) rest with
        | Some (payload, rest') => Some (true, payload, rest')
        | None => None
        end
  end.

(** The items of a payload, in order; the fuel bounds the length of the
    input. *)
Fixpoint parse_seq (fuel : nat) (bs : list byte) : option (list Value) :=
  match bs with
  | [] => Some []
  | _ :: _ =>
      match fuel with
      | O => None
      | S fuel' =>
          match parse_header bs with
          | Some (false, payload, rest) =>
              match parse_seq fuel' rest with
              | Some vs => Some (Bytes payload :: vs)
              | None => None
              end
          | Some (true, payload, rest) =>
              match parse_seq fuel' payload, parse_seq fuel' rest with
              | Some elems, Some vs => Some (Array elems :: vs)
              | _, _ => None
              end
          | None => None
          end
      end
  end.

(** The input holds exactly one item. *)
Definition Parse (bs : list byte) : result Value :=
  match parse_seq (List.length bs) bs with
  | Some [v] => Success v
  | _ => Failure FormatError
  end.

(** Modelled from the spec: the value constructors and readers of
    [fastrlp].  Section 4.1: integers are minimal big-endian byte strings,
    and a decoder rejects an integer with a leading zero byte. *)
Definition NewUint (n : Z) : Value := Bytes (be_bytes n).
Definition NewBigInt (n : Z) : Value := Bytes (be_bytes n).

Definition canonical_int (bs : list byte) : bool :=
  match bs with
  | [] => true
  | c :: _ => negb (byte_val c =? 0)
  end.

Definition GetUint64 (v : Value) : result Z :=
  match v with
  | Bytes bs =>
      if canonical_int bs && (len bs <=? 8) then Success (be_value bs)
      else Failure FormatError
  | Array _ => Failure FormatError
  end.

Definition GetBigInt (v : Value) : result Z :=
  match v with
  | Bytes bs =>
      if canonical_int bs then Success (be_value bs) else Failure FormatError
  | Array _ => Failure FormatError
  end.

Definition GetBytes (v : Value) : result (list byte) :=
  match v with
  | Bytes bs => Success bs
  | Array _ => Failure FormatError
  end.

Definition and_then {A B : Type} (r : result A) (f : A -> result B)
    : result B :=
  match r with
  | Success a => f a
  | Failure e => Failure e
  end.

Notation "x <-- r ;; k" := (and_then r (fun x => k))
  (at level 61, r at next level, right associativity).

Fixpoint traverse {A B : Type} (f : A -> result B) (l : list A)
    : result (list B) :=
  match l with
  | [] => Success []
  | a :: l' => b <-- f a ;; bs <-- traverse f l' ;; Success (b :: bs)
  end.

(** Modelled from the spec: section 3, the recipient is optional; an
    absent recipient is the empty byte string, a present one is its 20
    bytes. *)
Definition marshalTo (t : option EthereumAddress) : Value :=
  match t with
  | Some a => Bytes a
  | None => Bytes []
  end.

Definition unmarshalTo (v : Value) : result (option EthereumAddress) :=
  match v with
  | Bytes [] => Success None
  | Bytes a => if len a =? 20 then Success (Some a) else Failure FormatError
  | Array _ => Failure FormatError
  end.

(** Modelled from the spec: section 3, the access list maps an address to
    a set of storage keys; it is a list of pairs of a 20-byte address and
    a list of 32-byte keys. *)
Definition marshalAccessList (al : EthereumAccessList) : Value :=
  Array (map (fun t => Array [Bytes (fst t); Array (map Bytes (snd t))]) al).

Definition unmarshalKey (v : Value) : result (list byte) :=
  match v with
  | Bytes k => if len k =? 32 then Success k else Failure FormatError
  | Array _ => Failure FormatError
  end.

Definition unmarshalTuple (v : Value)
    : result (EthereumAddress * list (list byte)) :=
  match v with
  | Array [Bytes addr; Array keys] =>
      if len addr =? 20
      then ks <-- traverse unmarshalKey keys ;; Success (addr, ks)
      else Failure FormatError
  | _ => Failure FormatError
  end.

Definition unmarshalAccessList (v : Value) : result EthereumAccessList :=
  match v with
  | Array tuples => traverse unmarshalTuple tuples
  | Bytes _ => Failure FormatError
  end.

(** Modelled from the spec: section 4.2, the field layouts of the three
    shapes as lists of the canonical byte format. *)
Definition marshalToFastRLP (d : EthereumTxData) : Value :=
  match d with
  | LegacyTx tx =>
      Array [ NewUint (EthereumLegacyTx.Nonce tx);
              NewBigInt (EthereumLegacyTx.GasPrice tx);
              NewUint (EthereumLegacyTx.Gas tx);
              marshalTo (EthereumLegacyTx.To tx);
              NewBigInt (EthereumLegacyTx.Value tx);
              Bytes (EthereumLegacyTx.Data tx);
              NewBigInt (match EthereumLegacyTx.V tx with
                         | Some v => v
                         | None => 0
                         end);
              NewBigInt (EthereumLegacyTx.R tx);
              NewBigInt (EthereumLegacyTx.S tx) ]
  | AccessListTx tx =>
      Array [ NewBigInt (EthereumAccessListTx.ChainID tx);
              NewUint (EthereumAccessListTx.Nonce tx);
              NewBigInt (EthereumAccessListTx.GasPrice tx);
              NewUint (EthereumAccessListTx.Gas tx);
              marshalTo (EthereumAccessListTx.To tx);
              NewBigInt (EthereumAccessListTx.Value tx);
              Bytes (EthereumAccessListTx.Data tx);
              marshalAccessList (EthereumAccessListTx.AccessList tx);
              NewBigInt (EthereumAccessListTx.V tx);
              NewBigInt (EthereumAccessListTx.R tx);
              NewBigInt (EthereumAccessListTx.S tx) ]
  | DynamicFeeTx tx =>
      Array [ NewBigInt (EthereumDynamicFeeTx.ChainID tx);
              NewUint (EthereumDynamicFeeTx.Nonce tx);
              NewBigInt (EthereumDynamicFeeTx.GasTipCap tx);
              NewBigInt (EthereumDynamicFeeTx.GasFeeCap tx);
              NewUint (EthereumDynamicFeeTx.Gas tx);
              marshalTo (EthereumDynamicFeeTx.To tx);
              NewBigInt (EthereumDynamicFeeTx.Value tx);
              Bytes (EthereumDynamicFeeTx.Data tx);
              marshalAccessList (EthereumDynamicFeeTx.AccessList tx);
              NewBigInt (EthereumDynamicFeeTx.V tx);
              NewBigInt (EthereumDynamicFeeTx.R tx);
              NewBigInt (EthereumDynamicFeeTx.S tx) ]
  end.

Definition unmarshalFromFastRLP (value : Value) : result EthereumLegacyTx.t :=
  match value with
  | Array [e0; e1; e2; e3; e4; e5; e6; e7; e8] =>
      nonce <-- GetUint64 e0 ;;
      gasPrice <-- GetBigInt e1 ;;
      gas <-- GetUint64 e2 ;;
      addrTo <-- unmarshalTo e3 ;;
      weiValue <-- GetBigInt e4 ;;
      data <-- GetBytes e5 ;;
      v <-- GetBigInt e6 ;;
      r <-- GetBigInt e7 ;;
      s <-- GetBigInt e8 ;;
      Success {| EthereumLegacyTx.Nonce := nonce;
                 EthereumLegacyTx.GasPrice := gasPrice;
                 EthereumLegacyTx.Gas := gas;
                 EthereumLegacyTx.To := addrTo;
                 EthereumLegacyTx.Value := weiValue;
                 EthereumLegacyTx.Data := data;
                 EthereumLegacyTx.V := Some v;
                 EthereumLegacyTx.R := r;
                 EthereumLegacyTx.S := s |}
  | _ => Failure FormatError
  end.

Definition unmarshalAccessListTx (value : Value)
    : result EthereumAccessListTx.t :=
  match value with
  | Array [e0; e1; e2; e3; e4; e5; e6; e7; e8; e9; e10] =>
      chainID <-- GetBigInt e0 ;;
      nonce <-- GetUint64 e1 ;;
      gasPrice <-- GetBigInt e2 ;;
      gas <-- GetUint64 e3 ;;
      addrTo <-- unmarshalTo e4 ;;
      weiValue <-- GetBigInt e5 ;;
      data <-- GetBytes e6 ;;
      accessList <-- unmarshalAccessList e7 ;;
      v <-- GetBigInt e8 ;;
      r <-- GetBigInt e9 ;;
      s <-- GetBigInt e10 ;;
      Success {| EthereumAccessListTx.ChainID := chainID;
                 EthereumAccessListTx.Nonce := nonce;
                 EthereumAccessListTx.GasPrice := gasPrice;
                 EthereumAccessListTx.Gas := gas;
                 EthereumAccessListTx.To := addrTo;
                 EthereumAccessListTx.Value := weiValue;
                 EthereumAccessListTx.Data := data;
                 EthereumAccessListTx.AccessList := accessList;
                 EthereumAccessListTx.V := v;
                 EthereumAccessListTx.R := r;
                 EthereumAccessListTx.S := s |}
  | _ => Failure FormatError
  end.

Definition unmarshalDynamicFeeTx (value : Value)
    : result EthereumDynamicFeeTx.t :=
  match value with
  | Array [e0; e1; e2; e3; e4; e5; e6; e7; e8; e9; e10; e11] =>
      chainID <-- GetBigInt e0 ;;
      nonce <-- GetUint64 e1 ;;
      gasTipCap <-- GetBigInt e2 ;;
      gasFeeCap <-- GetBigInt e3 ;;
      gas <-- GetUint64 e4 ;;
      addrTo <-- unmarshalTo e5 ;;
      weiValue <-- GetBigInt e6 ;;
      data <-- GetBytes e7 ;;
      accessList <-- unmarshalAccessList e8 ;;
      v <-- GetBigInt e9 ;;
      r <-- GetBigInt e10 ;;
      s <-- GetBigInt e11 ;;
      Success {| EthereumDynamicFeeTx.ChainID := chainID;
                 EthereumDynamicFeeTx.Nonce := nonce;
                 EthereumDynamicFeeTx.GasTipCap := gasTipCap;
                 EthereumDynamicFeeTx.GasFeeCap := gasFeeCap;
                 EthereumDynamicFeeTx.Gas := gas;
                 EthereumDynamicFeeTx.To := addrTo;
                 EthereumDynamicFeeTx.Value := weiValue;
                 EthereumDynamicFeeTx.Data := data;
                 EthereumDynamicFeeTx.AccessList := accessList;
                 EthereumDynamicFeeTx.V := v;
                 EthereumDynamicFeeTx.R := r;
                 EthereumDynamicFeeTx.S := s |}
  | _ => Failure FormatError
  end.

Definition AccessListTx_DecodeRLP (rlpData : list byte)
    : result EthereumAccessListTx.t :=
  value <-- Parse rlpData ;; unmarshalAccessListTx value.

Definition DynamicFeeTx_DecodeRLP (rlpData : list byte)
    : result EthereumDynamicFeeTx.t :=
  value <-- Parse rlpData ;; unmarshalDynamicFeeTx value.

(** Modelled from the spec: [EthereumWeiToWavelet] is defined outside
    src/.  Section 4.5, rule 5: the value is converted to the native unit
    of the target ledger by a fixed-point conversion; the call site in
    [Validate] receives a signed 64-bit amount or an error ("too many
    waves").  A wei is 10^-18 and a wavelet 10^-8 of the respective coin,
    so the conversion divides by 10^10 and fails when the quotient is no
    signed 64-bit integer. *)
Definition diffEthWaves : Z := 10000000000.

Definition EthereumWeiToWavelet (wei : Z) : result Z :=
  let wavelets := wei / diffEthWaves in
  if IsInt64 wavelets then Success wavelets
  else Failure (errors_New
    (Sprintf "too many waves: %d" [IntArg wavelets])).

(** The payloads that the format represents: unsigned 64-bit counters,
    non-negative big integers, 20-byte addresses, 32-byte storage keys, a
    legacy [V] that is set, and an encoding whose length fits 64 bits. *)
Definition uint64_ok (n : Z) : Prop := 0 <= n < 2 ^ 64.

Definition to_ok (t : option EthereumAddress) : Prop :=
  match t with
  | Some a => len a = 20
  | None => True
  end.

Definition accessList_ok (al : EthereumAccessList) : Prop :=
  Forall (fun t => len (fst t) = 20 /\ Forall (fun k => len k = 32) (snd t))
         al.

Definition fields_ok (d : EthereumTxData) : Prop :=
  match d with
  | LegacyTx tx =>
      uint64_ok (EthereumLegacyTx.Nonce tx) /\
      0 <= EthereumLegacyTx.GasPrice tx /\
      uint64_ok (EthereumLegacyTx.Gas tx) /\
      to_ok (EthereumLegacyTx.To tx) /\
      0 <= EthereumLegacyTx.Value tx /\
      match EthereumLegacyTx.V tx with
      | Some v => 0 <= v
      | None => False
      end /\
      0 <= EthereumLegacyTx.R tx /\
      0 <= EthereumLegacyTx.S tx
  | AccessListTx tx =>
      0 <= EthereumAccessListTx.ChainID tx /\
      uint64_ok (EthereumAccessListTx.Nonce tx) /\
      0 <= EthereumAccessListTx.GasPrice tx /\
      uint64_ok (EthereumAccessListTx.Gas tx) /\
      to_ok (EthereumAccessListTx.To tx) /\
      0 <= EthereumAccessListTx.Value tx /\
      accessList_ok (EthereumAccessListTx.AccessList tx) /\
      0 <= EthereumAccessListTx.V tx /\
      0 <= EthereumAccessListTx.R tx /\
      0 <= EthereumAccessListTx.S tx
  | DynamicFeeTx tx =>
      0 <= EthereumDynamicFeeTx.ChainID tx /\
      uint64_ok (EthereumDynamicFeeTx.Nonce tx) /\
      0 <= EthereumDynamicFeeTx.GasTipCap tx /\
      0 <= EthereumDynamicFeeTx.GasFeeCap tx /\
      uint64_ok (EthereumDynamicFeeTx.Gas tx) /\
      to_ok (EthereumDynamicFeeTx.To tx) /\
      0 <= EthereumDynamicFeeTx.Value tx /\
      accessList_ok (EthereumDynamicFeeTx.AccessList tx) /\
      0 <= EthereumDynamicFeeTx.V tx /\
      0 <= EthereumDynamicFeeTx.R tx /\
      0 <= EthereumDynamicFeeTx.S tx
  end.

Definition valid (d : EthereumTxData) : Prop :=
  fields_ok d /\ len (encode (marshalToFastRLP d)) < 2 ^ 64.

End Model.

(** Modelled from the spec: [Keccak256EthereumHash] is defined outside
    src/.  Section 4.4: the id is computed with the hash function of the
    originating ecosystem, which is Keccak-256 (the original padding of
    Keccak, not that of SHA-3), a sponge over the permutation
    Keccak-f[1600] with a rate of 136 bytes. *)
Module Keccak.

Definition lane : Type := Z.
Definition mask64 : Z := 2 ^ 64 - 1.

Definition rotl (x : lane) (n : Z) : lane :=
  Z.land (Z.lor (Z.shiftl x n) (Z.shiftr x (64 - n))) mask64.

(** The 25 lanes of the state, lane (x, y) at index x + 5 y. *)
Definition at_ (st : list lane) (x y : Z) : lane :=
  nth (Z.to_nat (x mod 5 + 5 * (y mod 5))) st 0.

Definition coords : list (Z * Z) :=
  flat_map (fun y => map (fun x => (x, y)) [0; 1; 2; 3; 4]) [0; 1; 2; 3; 4].

Definition rotation_offsets : list Z :=
  [ 0;  1; 62; 28; 27;
   36; 44;  6; 55; 20;
    3; 10; 43; 25; 39;
   41; 45; 15; 21;  8;
   18;  2; 61; 56; 14].

Definition round_constants : list Z :=
  [0x0000000000000001; 0x0000000000008082; 0x800000000000808A;
   0x8000000080008000; 0x000000000000808B; 0x0000000080000001;
   0x8000000080008081; 0x8000000000008009; 0x000000000000008A;
   0x0000000000000088; 0x0000000080008009; 0x000000008000000A;
   0x000000008000808B; 0x800000000000008B; 0x8000000000008089;
   0x8000000000008003; 0x8000000000008002; 0x8000000000000080;
   0x000000000000800A; 0x800000008000000A; 0x8000000080008081;
   0x8000000000008080; 0x0000000080000001; 0x8000000080008008].

Definition theta (st : list lane) : list lane :=
  let c := fun x => fold_left Z.lxor (map (fun y => at_ st x y) [1; 2; 3; 4]) (at_ st x 0) in
  let d := fun x => Z.lxor (c (x + 4)) (rotl (c (x + 1)) 1) in
  map (fun '(x, y) => Z.lxor (at_ st x y) (d x)) coords.

(** rho and pi: lane (x, y) moves, rotated, to (y, 2x + 3y); read
    backwards, the lane at (x, y) comes from (x + 3y, x). *)
Definition rho_pi (st : list lane) : list lane :=
  map (fun '(x, y) =>
         let x' := (x + 3 * y) mod 5 in
         let y' := x in
         rotl (at_ st x' y') (nth (Z.to_nat (x' + 5 * y')) rotation_offsets 0))
      coords.

Definition chi (st : list lane) : list lane :=
  map (fun '(x, y) =>
         Z.lxor (at_ st x y) (Z.ldiff (at_ st (x + 2) y) (at_ st (x + 1) y)))
      coords.

Definition iota (rc : Z) (st : list lane) : list lane :=
  match st with
  | [] => []
  | l :: rest => Z.lxor l rc :: rest
  end.

Definition round (st : list lane) (rc : Z) : list lane :=
  iota rc (chi (rho_pi (theta st))).

Definition keccak_f (st : list lane) : list lane :=
  fold_left round round_constants st.

(** Lanes are read and written little-endian. *)
Definition lane_of_bytes (bs : list byte) : lane :=
  fold_right (fun b acc => byte_val b + 256 * acc) 0 bs.

Definition bytes_of_lane (l : lane) : list byte :=
  map (fun i => byte_of (Z.shiftr l (8 * i) mod 256)) [0; 1; 2; 3; 4; 5; 6; 7].

Definition rate : nat := 136.

Fixpoint chunks (fuel : nat) (n : nat) (bs : list byte) : list (list byte) :=
  match fuel with
  | O => []
  | S fuel' =>
      match bs with
      | [] => []
      | _ => firstn n bs :: chunks fuel' n (skipn n bs)
      end
  end.

(** The padding of Keccak (not of SHA-3): a 0x01 byte, zeros, and the top
    bit of the last byte of the block. *)
Definition pad (bs : list byte) : list byte :=
  let r := (rate - (List.length bs mod rate))%nat in
  match r with
  | 1%nat => bs ++ [x81]
  | _ => bs ++ [x01] ++ repeat x00 (r - 2) ++ [x80]
  end.

Definition absorb (st : list lane) (block : list byte) : list lane :=
  let lanes := map lane_of_bytes (chunks 17 8 block) in
  keccak_f (map (fun '(i, l) => Z.lxor l (nth i lanes 0))
                (combine (seq 0 25) st)).

Definition Keccak256 (bs : list byte) : list byte :=
  let padded := pad bs in
  let st := fold_left absorb (chunks (List.length padded) rate padded)
                      (repeat 0 25) in
  flat_map bytes_of_lane (firstn 4 st).

End Keccak.

Definition model : Externals :=
  {| fastrlp_Value := Model.Value;
     Parse := Model.Parse;
     MarshalTo := Model.MarshalTo;
     marshalToFastRLP := Model.marshalToFastRLP;
     unmarshalFromFastRLP := Model.unmarshalFromFastRLP;
     AccessListTx_DecodeRLP := Model.AccessListTx_DecodeRLP;
     DynamicFeeTx_DecodeRLP := Model.DynamicFeeTx_DecodeRLP;
     Keccak256EthereumHash := Keccak.Keccak256;
     EthereumWeiToWavelet := Model.EthereumWeiToWavelet |}.

(** ** The envelopes of the examples *)

(** An envelope on which nothing was decoded yet. *)
Definition fresh : EthereumTransaction :=
  {| inner := None; innerBinarySize := 0; id := None; senderPK := None |}.

(** The envelope that [DecodeCanonical] leaves when it is given the
    canonical bytes of a payload. *)
Definition received (d : EthereumTxData) : EthereumTransaction :=
  decoded fresh d (canonical (ext := model) d).

Definition recipient : EthereumAddress := repeat xab 20.

(** A legacy payload in the shape of scenario A of section 8, signed for
    chain 87 (v = 2 * 87 + 35), with the given value and data. *)
Definition legacy (weiValue : Z) (callData : list byte)
    : EthereumLegacyTx.t :=
  {| EthereumLegacyTx.Nonce := 1;
     EthereumLegacyTx.GasPrice := 10000000000;
     EthereumLegacyTx.Gas := 21000;
     EthereumLegacyTx.To := Some recipient;
     EthereumLegacyTx.Value := weiValue;
     EthereumLegacyTx.Data := callData;
     EthereumLegacyTx.V := Some 209;
     EthereumLegacyTx.R := 0x1c5f3a;
     EthereumLegacyTx.S := 0x2b7e15 |}.

Definition scenarioA : EthereumLegacyTx.t :=
  legacy 0 [xa9; x05; x9c; xbb].

(** Scenario A with call data of one byte more than 1 MiB. *)
Definition oversized : EthereumLegacyTx.t :=
  legacy 0 (x01 :: repeat x00 (Z.to_nat 1048576)).

(** Scenario B: neither value nor data. *)
Definition cancellation : EthereumLegacyTx.t := legacy 0 [].

(** Both a value (one wavelet) and data. *)
Definition valueAndData : EthereumLegacyTx.t :=
  legacy 10000000000 [xa9; x05; x9c; xbb].

(** A transfer of 2^63 wavelets, one more than a signed 64-bit amount
    holds. *)
Definition tooManyWaves : EthereumLegacyTx.t :=
  legacy (2 ^ 63 * 10000000000) [].

(** The same transfer offered at a gas price of 1 Gwei. *)
Definition tooManyWavesAtOneGwei : EthereumLegacyTx.t :=
  {| EthereumLegacyTx.Nonce := 1;
     EthereumLegacyTx.GasPrice := 1000000000;
     EthereumLegacyTx.Gas := 21000;
     EthereumLegacyTx.To := Some recipient;
     EthereumLegacyTx.Value := 2 ^ 63 * 10000000000;
     EthereumLegacyTx.Data := [];
     EthereumLegacyTx.V := Some 209;
     EthereumLegacyTx.R := 0x1c5f3a;
     EthereumLegacyTx.S := 0x2b7e15 |}.

(** A payload built in memory with a negative value; no bytes decode to
    it. *)
Definition negativeValue : EthereumLegacyTx.t :=
  legacy (- 10000000000) [].

(** A legacy payload signed without a chain id (v = 27). *)
Definition unprotected : EthereumLegacyTx.t :=
  {| EthereumLegacyTx.Nonce := 1;
     EthereumLegacyTx.GasPrice := 10000000000;
     EthereumLegacyTx.Gas := 21000;
     EthereumLegacyTx.To := Some recipient;
     EthereumLegacyTx.Value := 10000000000;
     EthereumLegacyTx.Data := [];
     EthereumLegacyTx.V := Some 27;
     EthereumLegacyTx.R := 0x1c5f3a;
     EthereumLegacyTx.S := 0x2b7e15 |}.

(** Scenario D: an access-list payload for chain 87. *)
Definition scenarioD : EthereumAccessListTx.t :=
  {| EthereumAccessListTx.ChainID := 87;
     EthereumAccessListTx.Nonce := 1;
     EthereumAccessListTx.GasPrice := 10000000000;
     EthereumAccessListTx.Gas := 21000;
     EthereumAccessListTx.To := Some recipient;
     EthereumAccessListTx.Value := 0;
     EthereumAccessListTx.Data := [xa9; x05; x9c; xbb];
     EthereumAccessListTx.AccessList := [(recipient, [repeat x07 32])];
     EthereumAccessListTx.V := 1;
     EthereumAccessListTx.R := 0x1c5f3a;
     EthereumAccessListTx.S := 0x2b7e15 |}.

(** A dynamic-fee payload for chain 87. *)
Definition dynamicFee : EthereumDynamicFeeTx.t :=
  {| EthereumDynamicFeeTx.ChainID := 87;
     EthereumDynamicFeeTx.Nonce := 1;
     EthereumDynamicFeeTx.GasTipCap := 1000000000;
     EthereumDynamicFeeTx.GasFeeCap := 10000000000;
     EthereumDynamicFeeTx.Gas := 21000;
     EthereumDynamicFeeTx.To := Some recipient;
     EthereumDynamicFeeTx.Value := 0;
     EthereumDynamicFeeTx.Data := [xa9; x05; x9c; xbb];
     EthereumDynamicFeeTx.AccessList := [];
     EthereumDynamicFeeTx.V := 0;
     EthereumDynamicFeeTx.R := 0x1c5f3a;
     EthereumDynamicFeeTx.S := 0x2b7e15 |}.

(** A key and a signer for the examples.  The signer stands in for the key
    recovery of the curve, which is outside the file: it answers
    [sampleKey] for a legacy payload whose [v] is chain-bound and refuses
    every other payload with [ErrInvalidSig].  The reader answers a
    transaction of another type for a leading 0x00 and scenario A as
    received for any other bytes.  The properties of [Verify] and of
    [UnmarshalSignedFromProtobuf] are proved for every signer and reader;
    these serve to run them. *)
Definition sampleKey : EthereumPublicKey := repeat x04 64.

Definition sampleSigning : Signing :=
  {| EthereumSigner := Z;
     MakeEthereumSigner := fun chainId => chainId;
     SenderPK := fun _ tx =>
       match inner tx with
       | Some (LegacyTx l) =>
           match EthereumLegacyTx.V l with
           | Some v =>
               if isProtectedV v then Success sampleKey
               else Failure ErrInvalidSig
           | None => Failure ErrInvalidSig
           end
       | _ => Failure ErrInvalidSig
       end;
     PK_EthereumAddress := fun pk => firstn 20 pk;
     SignedTxFromProtobuf := fun bytes =>
       match bytes with
       | [] => Failure (errors_New (Lit "unexpected end of input"))
       | x00 :: _ => Success (OtherTransaction "*proto.TransferWithProofs")
       | _ => Success (EthereumTransactionPtr (received (LegacyTx scenarioA)))
       end |}.

(** * Properties *)

(** Unfolds the envelope monad and the accessors down to matches on the
    envelope's fields. *)
Ltac run :=
  unfold TxType, ChainId, Data, AccessList, Gas, GasPrice, Value, Nonce, To,
         the_inner, set_inner, set_innerBinarySize, set_id, index, panic,
         put, get, bind, ret in *;
  cbn [nth_error skipn fst snd] in *.

Section Properties.
Context {ext : Externals}.

Lemma byte_val_range (b : byte) : 0 <= byte_val b < 256.
Proof.
  unfold byte_val. pose proof (Byte.to_N_bounded b) as H. lia.
Qed.

Lemma len_cons {A : Type} (a : A) (s : list A) : len (a :: s) = len s + 1.
Proof. unfold len. cbn [List.length]. lia. Qed.

Lemma len_nonneg {A : Type} (s : list A) : 0 <= len s.
Proof. unfold len. lia. Qed.

Lemma decodeTypedCanonical_cons (b : byte) (rest : list byte)
    (tx : EthereumTransaction) :
  decodeTypedCanonical (b :: rest) tx =
    Some (if Byte.eqb b EthereumAccessListTxType then
            match AccessListTx_DecodeRLP rest with
            | Failure err =>
                Failure (errors_Wrapf err
                  "failed to unmarshal ethereum tx from RLP, ethereumTxType %q"
                  [StrArg (EthereumTxType_String EthereumAccessListTxType)])
            | Success a => Success (AccessListTx a)
            end
          else if Byte.eqb b EthereumDynamicFeeTxType then
            match DynamicFeeTx_DecodeRLP rest with
            | Failure err =>
                Failure (errors_Wrapf err
                  "failed to unmarshal ethereum tx from RLP, ethereumTxType %q"
                  [StrArg (EthereumTxType_String EthereumDynamicFeeTxType)])
            | Success f => Success (DynamicFeeTx f)
            end
          else Failure ErrTxTypeNotSupported, tx).
Proof.
  unfold decodeTypedCanonical.
  pose proof (len_nonneg rest) as Hn. rewrite len_cons.
  destruct (Z.eqb_spec (len rest + 1) 0) as [E | _]; [lia |].
  run.
  destruct (Byte.eqb b EthereumAccessListTxType).
  - destruct (AccessListTx_DecodeRLP rest); reflexivity.
  - destruct (Byte.eqb b EthereumDynamicFeeTxType); [| reflexivity].
    destruct (DynamicFeeTx_DecodeRLP rest); reflexivity.
Qed.

Lemma DecodeCanonical_cons (b : byte) (rest : list byte)
    (tx : EthereumTransaction) :
  DecodeCanonical (b :: rest) tx =
    if 0x7f <? byte_val b then
      match Parse (b :: rest) with
      | Failure err =>
          Some (Some (errors_Wrap err
            (Lit "failed to parse canonical representation as RLP")), tx)
      | Success v =>
          match unmarshalFromFastRLP v with
          | Failure err =>
              Some (Some (errors_Wrapf err
                "failed to unmarshal from RLP ethereum legacy transaction, ethereumTxType %q"
                [StrArg (EthereumTxType_String EthereumLegacyTxType)]), tx)
          | Success l => Some (None, decoded tx (LegacyTx l) (b :: rest))
          end
      end
    else
      match decodeTypedCanonical (b :: rest) tx with
      | Some (Failure err, _) => Some (Some (wrapTyped err), tx)
      | Some (Success d, _) => Some (None, decoded tx d (b :: rest))
      | None => None
      end.
Proof.
  unfold DecodeCanonical.
  pose proof (len_nonneg rest) as Hn.
  unfold bind at 1. rewrite len_cons.
  destruct (Z.ltb_spec 0 (len rest + 1)) as [_ | E]; [| lia].
  unfold index at 1. cbn [nth_error]. unfold bind at 1, ret at 1, ret at 1.
  destruct (0x7f <? byte_val b).
  - destruct (Parse (b :: rest)); [| reflexivity].
    destruct (unmarshalFromFastRLP a); [| reflexivity].
    run. unfold decoded. rewrite len_cons. reflexivity.
  - unfold bind at 1. rewrite decodeTypedCanonical_cons.
    destruct (Byte.eqb b EthereumAccessListTxType);
      [destruct (AccessListTx_DecodeRLP rest) |
       destruct (Byte.eqb b EthereumDynamicFeeTxType);
         [destruct (DynamicFeeTx_DecodeRLP rest) |]];
      try reflexivity;
      run; unfold decoded; rewrite len_cons; reflexivity.
Qed.

Lemma Cmp_zero (x y : Z) : (Cmp x y =? 0) = (x =? y).
Proof.
  unfold Cmp.
  destruct (Z.compare_spec x y); destruct (Z.eqb_spec x y);
    try lia; reflexivity.
Qed.

Ltac vstep :=
  cbn [inner innerBinarySize negb andb]; rewrite ?Cmp_zero;
  cbn [inner innerBinarySize negb andb].

(** [Validate] is the ordered list of rules, with the conversion of the
    value between rule 4 and rule 5; it never writes the envelope. *)
Lemma Validate_by_rules (scheme : Scheme) (tx : EthereumTransaction)
    (d : EthereumTxData) :
  inner tx = Some d ->
  Validate scheme tx =
    Some (match first_failure (rules_1_to_4 scheme tx d) with
          | Some e => Failure e
          | None =>
              match EthereumWeiToWavelet (value d) with
              | Failure err => Failure (NewFeeValidation (ErrorText err))
              | Success wavelets =>
                  match first_failure (rules_5_to_10 d wavelets) with
                  | Some e => Failure e
                  | None => Success tx
                  end
              end
          end, tx).
Proof.
  intros Hd. destruct tx as [i size cached pk]. cbn [inner] in Hd. subst i.
  unfold Validate. run. unfold copyBigInt, big0.
  cbn [rules_1_to_4 rules_5_to_10 first_failure innerBinarySize].
  rewrite (Z.leb_antisym (1024 * 1024) size), (Z.ltb_antisym (gas d) 0),
    (Z.ltb_antisym (nonce d) 0).
  vstep. destruct (chainID d =? scheme); vstep; [| reflexivity].
  destruct (Byte.eqb (ethereumTxType d) EthereumLegacyTxType); vstep;
    [| reflexivity].
  destruct (1024 * 1024 <? size); vstep; [reflexivity |].
  destruct (gas d <=? 0); vstep; [reflexivity |].
  destruct (EthereumWeiToWavelet (value d)) as [w | err]; [| reflexivity].
  rewrite (Z.leb_antisym w 0).
  destruct (w <? 0); vstep; [reflexivity |].
  destruct (value d =? 0) eqn:Ev; vstep;
    destruct (len (data d) =? 0) eqn:El; vstep; try reflexivity;
    do 3 (rewrite ?Ev, ?El; vstep); try reflexivity;
    (destruct (gasPrice d =? EthereumGasPrice); vstep; [| reflexivity];
     destruct (to d); vstep; [| reflexivity];
     destruct (nonce d <=? 0); reflexivity).
Qed.

Lemma Validate_keeps_envelope (scheme : Scheme) (tx : EthereumTransaction)
    (r : result EthereumTransaction) (tx' : EthereumTransaction) :
  Validate scheme tx = Some (r, tx') -> tx' = tx.
Proof.
  destruct (inner tx) as [d |] eqn:Hd.
  - rewrite (Validate_by_rules scheme tx d Hd). intros H.
    injection H as _ H. symmetry. exact H.
  - unfold Validate. run. rewrite Hd. discriminate.
Qed.

(** C2 (amended).  [Validate] applies the ten rules of section 4.5 in the
    order of the list and reports the error of the first one that does not
    pass, with one step of its own between rule 4 and rule 5: a failing
    rule among 1 to 4 is reported whatever the later fields are; once these
    pass and the value converts to an amount, the first failing rule among
    5 to 10 is reported, and when all ten pass the envelope is returned;
    once rules 1 to 4 pass and the conversion of the value fails, a
    fee-validation error with the conversion's message is reported,
    whatever rules 6 to 10 would say.  In particular an envelope with a
    foreign chain id whose recorded length exceeds 1 MiB is answered with
    the chain-id error, not the size error. *)
Theorem Validate_reports_first_failing_rule
    (scheme : Scheme) (tx : EthereumTransaction) (d : EthereumTxData) :
  inner tx = Some d ->
  (forall e, first_failure (rules_1_to_4 scheme tx d) = Some e ->
     Validate scheme tx = Some (Failure e, tx)) /\
  (forall wavelets e,
     all_pass (rules_1_to_4 scheme tx d) ->
     EthereumWeiToWavelet (value d) = Success wavelets ->
     first_failure (rules_5_to_10 d wavelets) = Some e ->
     Validate scheme tx = Some (Failure e, tx)) /\
  (forall wavelets,
     all_pass (rules_1_to_4 scheme tx d) ->
     EthereumWeiToWavelet (value d) = Success wavelets ->
     all_pass (rules_5_to_10 d wavelets) ->
     Validate scheme tx = Some (Success tx, tx)) /\
  (chainID d <> scheme -> 1024 * 1024 < innerBinarySize tx ->
     Validate scheme tx = Some (Failure (errChainMismatch scheme d), tx)) /\
  (forall err,
     all_pass (rules_1_to_4 scheme tx d) ->
     EthereumWeiToWavelet (value d) = Failure err ->
     Validate scheme tx =
       Some (Failure (NewFeeValidation (ErrorText err)), tx)).
Proof.
  intros Hd. rewrite (Validate_by_rules scheme tx d Hd).
  unfold all_pass. split; [| split; [| split; [| split]]].
  - intros e He. rewrite He. reflexivity.
  - intros w e H14 Hw He. rewrite H14, Hw, He. reflexivity.
  - intros w H14 Hw H510. rewrite H14, Hw, H510. reflexivity.
  - intros Hc _. cbn [rules_1_to_4 first_failure].
    destruct (Z.eqb_spec (chainID d) scheme) as [E | _]; [contradiction |].
    reflexivity.
  - intros err H14 Herr. rewrite H14, Herr. reflexivity.
Qed.

(** C4 (amended).  Scenario A: a legacy envelope with value 0, non-empty
    data, gas price 10 Gwei, gas limit 21000, a recipient, nonce 1 and the
    chain id of the target is accepted, provided its recorded length is at
    most 1 MiB; zero wei convert to a non-negative amount. *)
Theorem Validate_scenario_A
    (scheme : Scheme) (tx : EthereumTransaction) (l : EthereumLegacyTx.t) :
  inner tx = Some (LegacyTx l) ->
  EthereumLegacyTx.Value l = 0 ->
  EthereumLegacyTx.Data l <> [] ->
  EthereumLegacyTx.GasPrice l = EthereumGasPrice ->
  EthereumLegacyTx.Gas l = 21000 ->
  EthereumLegacyTx.To l <> None ->
  EthereumLegacyTx.Nonce l = 1 ->
  chainID (LegacyTx l) = scheme ->
  innerBinarySize tx <= 1024 * 1024 ->
  (exists wavelets, EthereumWeiToWavelet 0 = Success wavelets /\ 0 <= wavelets) ->
  Validate scheme tx = Some (Success tx, tx).
Proof.
  intros Hd Hv Hdata Hp Hg Hto Hn Hc Hsize [w [Hw Hw0]].
  rewrite (Validate_by_rules scheme tx _ Hd).
  cbn [rules_1_to_4 rules_5_to_10 first_failure value data gasPrice gas to
       nonce ethereumTxType] in *.
  rewrite Hc, Hv, Hp, Hg, Hn, Hw, Z.eqb_refl.
  destruct (Z.leb_spec (innerBinarySize tx) (1024 * 1024)); [| lia].
  destruct (Z.leb_spec 0 w); [| lia].
  destruct (EthereumLegacyTx.Data l) as [| b rest]; [contradiction |].
  destruct (EthereumLegacyTx.To l); [| contradiction].
  rewrite len_cons.
  destruct (Z.eqb_spec (len rest + 1) 0) as [E | _];
    [pose proof (len_nonneg rest); lia |].
  reflexivity.
Qed.

(** C6.  An accepted envelope has exactly one of value and data set.  Once
    rules 1 to 5 pass, an envelope with neither is refused as a
    cancellation and an envelope with both is refused as having both,
    whatever its gas price, recipient and nonce are; a negative amount is
    reported before either. *)
Theorem Validate_payload_shape
    (scheme : Scheme) (tx : EthereumTransaction) (d : EthereumTxData) :
  inner tx = Some d ->
  (forall tx' tx'', Validate scheme tx = Some (Success tx', tx'') ->
     (value d = 0 /\ data d <> []) \/ (value d <> 0 /\ data d = [])) /\
  (forall wavelets,
     all_pass (rules_1_to_4 scheme tx d) ->
     EthereumWeiToWavelet (value d) = Success wavelets -> 0 <= wavelets ->
     value d = 0 -> data d = [] ->
     Validate scheme tx = Some (Failure errCancellation, tx)) /\
  (forall wavelets,
     all_pass (rules_1_to_4 scheme tx d) ->
     EthereumWeiToWavelet (value d) = Success wavelets -> 0 <= wavelets ->
     value d <> 0 -> data d <> [] ->
     Validate scheme tx = Some (Failure errDataAndValue, tx)) /\
  (forall wavelets,
     all_pass (rules_1_to_4 scheme tx d) ->
     EthereumWeiToWavelet (value d) = Success wavelets -> wavelets < 0 ->
     Validate scheme tx =
       Some (Failure (NewNonPositiveAmount wavelets "waves"), tx)).
Proof.
  intros Hd. rewrite (Validate_by_rules scheme tx d Hd).
  unfold all_pass. repeat split.
  - intros tx' tx''.
    destruct (first_failure (rules_1_to_4 scheme tx d)); [discriminate |].
    destruct (EthereumWeiToWavelet (value d)) as [w |]; [| discriminate].
    cbn [rules_5_to_10 first_failure].
    destruct (0 <=? w); [| discriminate].
    destruct (Z.eqb_spec (value d) 0) as [Ev | Ev];
      destruct (data d) as [| b rest]; cbn [andb negb];
      try rewrite len_cons;
      try (destruct (Z.eqb_spec (len rest + 1) 0) as [E | _];
           [pose proof (len_nonneg rest); lia |]);
      cbn [len List.length Z.of_nat Z.eqb andb negb]; try discriminate; intros _.
    + left. split; [exact Ev | discriminate].
    + right. split; [exact Ev | reflexivity].
  - intros w H14 Hw Hw0 Hv Hdata. rewrite H14, Hw.
    cbn [rules_5_to_10 first_failure]. rewrite Hv, Hdata.
    destruct (Z.leb_spec 0 w); [| lia]. reflexivity.
  - intros w H14 Hw Hw0 Hv Hdata. rewrite H14, Hw.
    cbn [rules_5_to_10 first_failure].
    destruct (Z.leb_spec 0 w); [| lia].
    destruct (Z.eqb_spec (value d) 0) as [E | _]; [contradiction |].
    destruct (data d) as [| b rest]; [contradiction |].
    rewrite len_cons.
    destruct (Z.eqb_spec (len rest + 1) 0) as [E | _];
      [pose proof (len_nonneg rest); lia |].
    reflexivity.
  - intros w H14 Hw Hw0. rewrite H14, Hw.
    cbn [rules_5_to_10 first_failure].
    destruct (Z.leb_spec 0 w); [lia |]. reflexivity.
Qed.

(** C8 (amended).  Once rules 1 to 4 pass, [Validate] answers with the
    non-positive-amount error exactly when the conversion of the value
    yields a negative amount, and it answers with a fee-validation error
    carrying the conversion's own message when the conversion fails. *)
Theorem Validate_conversion_step
    (scheme : Scheme) (tx : EthereumTransaction) (d : EthereumTxData) :
  inner tx = Some d ->
  all_pass (rules_1_to_4 scheme tx d) ->
  (forall amount asset,
     Validate scheme tx = Some (Failure (NewNonPositiveAmount amount asset), tx)
     <-> (EthereumWeiToWavelet (value d) = Success amount /\ amount < 0
          /\ asset = "waves")) /\
  (forall err,
     EthereumWeiToWavelet (value d) = Failure err ->
     Validate scheme tx = Some (Failure (NewFeeValidation (ErrorText err)), tx)).
Proof.
  intros Hd H14. rewrite (Validate_by_rules scheme tx d Hd).
  unfold all_pass in H14. rewrite H14. split.
  - intros amount asset.
    destruct (EthereumWeiToWavelet (value d)) as [w | err].
    + cbn [rules_5_to_10 first_failure].
      destruct (Z.leb_spec 0 w) as [Hw | Hw].
      * split.
        -- unfold errCancellation, errDataAndValue, errGasPrice,
             errContractCreation, errTimestamp.
           repeat match goal with
                  | |- context [if ?b then _ else _] => destruct b
                  | |- context [match to d with _ => _ end] => destruct (to d)
                  end; discriminate.
        -- intros [E [Hneg _]]. injection E as E. lia.
      * split.
        -- intros E. injection E as E1 E2. subst. repeat split; [lia].
        -- intros [E [_ Ea]]. injection E as E. subst. reflexivity.
    + split; [discriminate |]. intros [E _]. discriminate.
  - intros err Herr. rewrite Herr. reflexivity.
Qed.

Lemma byte_val_inj (a b : byte) : byte_val a = byte_val b -> a = b.
Proof.
  unfold byte_val. intros H.
  assert (E : Byte.to_N a = Byte.to_N b) by lia.
  pose proof (Byte.of_to_N a) as Ha. rewrite E, Byte.of_to_N in Ha.
  congruence.
Qed.

Lemma byte_eqb_spec (a b : byte) : reflect (a = b) (Byte.eqb a b).
Proof.
  destruct (Byte.eqb a b) eqn:E; constructor.
  - apply Byte.byte_dec_bl. exact E.
  - intros ->. rewrite (Byte.byte_dec_lb eq_refl) in E. discriminate.
Qed.

(** C3.  [DecodeCanonical] dispatches on the first byte: above 0x7f the
    whole input goes to the legacy decoder; 0x01 and 0x02 are consumed as
    the tag and the rest goes to the access-list, respectively dynamic-fee,
    decoder; any other first byte is refused with ErrTxTypeNotSupported. *)
Theorem DecodeCanonical_dispatch
    (b : byte) (rest : list byte) (tx : EthereumTransaction) :
  (0x7f < byte_val b ->
     DecodeCanonical (b :: rest) tx = legacyRoute (b :: rest) tx) /\
  (b = x01 ->
     DecodeCanonical (b :: rest) tx =
       typedRoute EthereumAccessListTxType
         (asAccessList (AccessListTx_DecodeRLP rest)) (b :: rest) tx) /\
  (b = x02 ->
     DecodeCanonical (b :: rest) tx =
       typedRoute EthereumDynamicFeeTxType
         (asDynamicFee (DynamicFeeTx_DecodeRLP rest)) (b :: rest) tx) /\
  (byte_val b <= 0x7f -> b <> x01 -> b <> x02 ->
     DecodeCanonical (b :: rest) tx =
       Some (Some (wrapTyped ErrTxTypeNotSupported), tx) /\
     errors_Cause (wrapTyped ErrTxTypeNotSupported) = ErrTxTypeNotSupported).
Proof.
  rewrite DecodeCanonical_cons, decodeTypedCanonical_cons.
  unfold legacyRoute, typedRoute, asAccessList, asDynamicFee.
  split; [| split; [| split]].
  - intros Hb. destruct (Z.ltb_spec 0x7f (byte_val b)); [reflexivity | lia].
  - intros ->. cbn. destruct (AccessListTx_DecodeRLP rest); reflexivity.
  - intros ->. cbn. destruct (DynamicFeeTx_DecodeRLP rest); reflexivity.
  - intros Hb H1 H2. split; [| reflexivity].
    destruct (Z.ltb_spec 0x7f (byte_val b)); [lia |].
    destruct (byte_eqb_spec b EthereumAccessListTxType); [contradiction |].
    destruct (byte_eqb_spec b EthereumDynamicFeeTxType); [contradiction |].
    reflexivity.
Qed.

(** C10.  [DecodeCanonical] never panics.  The empty input has no first
    byte: it goes to the typed branch, which reports "empty typed
    transaction bytes".  A leading 0x00, the numeric value of the legacy
    type, is refused with ErrTxTypeNotSupported, and the typed branch never
    yields a legacy payload. *)
Theorem DecodeCanonical_total_on_empty_and_zero_tag (tx : EthereumTransaction) :
  DecodeCanonical [] tx =
    Some (Some (wrapTyped (errors_New (Lit "empty typed transaction bytes"))), tx)
  /\ (forall rest,
        DecodeCanonical (x00 :: rest) tx =
          Some (Some (wrapTyped ErrTxTypeNotSupported), tx))
  /\ (forall canonicalData, DecodeCanonical canonicalData tx <> None)
  /\ (forall canonicalData l tx',
        decodeTypedCanonical canonicalData tx <> Some (Success (LegacyTx l), tx')).
Proof.
  split; [reflexivity | split; [| split]].
  - intros rest. rewrite DecodeCanonical_cons, decodeTypedCanonical_cons.
    reflexivity.
  - intros [| b rest]; [discriminate |].
    rewrite DecodeCanonical_cons, decodeTypedCanonical_cons.
    destruct (0x7f <? byte_val b).
    + destruct (Parse (b :: rest)) as [v |]; [| discriminate].
      destruct (unmarshalFromFastRLP v); discriminate.
    + destruct (Byte.eqb b EthereumAccessListTxType);
        [destruct (AccessListTx_DecodeRLP rest); discriminate |].
      destruct (Byte.eqb b EthereumDynamicFeeTxType);
        [destruct (DynamicFeeTx_DecodeRLP rest); discriminate |].
      discriminate.
  - intros [| b rest] l tx'; [discriminate |].
    rewrite decodeTypedCanonical_cons.
    destruct (Byte.eqb b EthereumAccessListTxType);
      [destruct (AccessListTx_DecodeRLP rest); discriminate |].
    destruct (Byte.eqb b EthereumDynamicFeeTxType);
      [destruct (DynamicFeeTx_DecodeRLP rest); discriminate |].
    discriminate.
Qed.

(** C9.  A failed [DecodeCanonical] leaves the payload, the recorded
    length and both caches as they were, and so does a failed [Validate]. *)
Theorem failure_leaves_envelope_unchanged
    (canonicalData : list byte) (scheme : Scheme) (tx : EthereumTransaction) :
  (forall e tx', DecodeCanonical canonicalData tx = Some (Some e, tx') ->
     tx' = tx) /\
  (forall e tx', Validate scheme tx = Some (Failure e, tx') -> tx' = tx).
Proof.
  split.
  - intros e tx'. destruct canonicalData as [| b rest].
    + intros H. injection H as _ H. symmetry. exact H.
    + rewrite DecodeCanonical_cons, decodeTypedCanonical_cons.
      destruct (0x7f <? byte_val b).
      * destruct (Parse (b :: rest)) as [v |].
        -- destruct (unmarshalFromFastRLP v); [discriminate |].
           intros H. injection H as _ H. symmetry. exact H.
        -- intros H. injection H as _ H. symmetry. exact H.
      * destruct (Byte.eqb b EthereumAccessListTxType);
          [destruct (AccessListTx_DecodeRLP rest) |
           destruct (Byte.eqb b EthereumDynamicFeeTxType);
             [destruct (DynamicFeeTx_DecodeRLP rest) |]];
          try discriminate;
          intros H; injection H as _ H; symmetry; exact H.
  - intros e tx'. apply Validate_keeps_envelope.
Qed.

(** C7.  [Protected] answers true for the access-list and dynamic-fee
    shapes.  For the legacy shape with signature scalar [v] (never negative
    as decoded) it answers true exactly when [v] is chain-bound: if [v] has
    at most 8 bits, when [v] is none of 0, 1, 27, 28; always if [v] has more
    bits.  A legacy payload without [v] is not protected. *)
Theorem Protected_spec (tx : EthereumTransaction) :
  (forall a, inner tx = Some (AccessListTx a) -> Protected tx = Some (true, tx)) /\
  (forall f, inner tx = Some (DynamicFeeTx f) -> Protected tx = Some (true, tx)) /\
  (forall l v,
     inner tx = Some (LegacyTx l) -> EthereumLegacyTx.V l = Some v -> 0 <= v ->
     exists p, Protected tx = Some (p, tx) /\
       (BitLen v <= 8 ->
          (p = true <-> v <> 0 /\ v <> 1 /\ v <> 27 /\ v <> 28)) /\
       (8 < BitLen v -> p = true)) /\
  (forall l,
     inner tx = Some (LegacyTx l) -> EthereumLegacyTx.V l = None ->
     Protected tx = Some (false, tx)).
Proof.
  unfold Protected. run. split; [| split; [| split]].
  - intros a ->. reflexivity.
  - intros f ->. reflexivity.
  - intros l v -> -> Hv. exists (isProtectedV v).
    split; [reflexivity |]. unfold isProtectedV. split.
    + intros Hb. destruct (Z.leb_spec (BitLen v) 8); [| lia].
      assert (Hu : Uint64 v = v).
      { unfold Uint64. rewrite Z.abs_eq by exact Hv.
        apply Z.mod_small. split; [exact Hv |].
        unfold BitLen in Hb. destruct (Z.eqb_spec v 0); [lia |].
        assert (Z.log2 v < 8) by (rewrite Z.abs_eq in Hb by exact Hv; lia).
        apply Z.log2_lt_pow2 in H0; lia. }
      cbv zeta. rewrite Hu.
      destruct (Z.eqb_spec v 27), (Z.eqb_spec v 28), (Z.eqb_spec v 1),
        (Z.eqb_spec v 0); cbn [negb andb]; split;
        try discriminate; try reflexivity; intros; lia.
    + intros Hb. destruct (Z.leb_spec (BitLen v) 8); [lia | reflexivity].
  - intros l -> ->. reflexivity.
Qed.

Lemma EncodeCanonical_canonical (tx : EthereumTransaction)
    (d : EthereumTxData) :
  inner tx = Some d ->
  EncodeCanonical tx = Some ((canonical d, None), tx).
Proof.
  intros Hd. destruct tx as [i size c pk]. cbn [inner] in Hd. subst i.
  unfold EncodeCanonical, encodeTypedCanonical, canonical. run.
  cbn [inner].
  destruct (Byte.eqb (ethereumTxType d) EthereumLegacyTxType);
    cbn [inner app]; reflexivity.
Qed.

(** C5.  The id of a decoded envelope whose cache is still empty is the
    Keccak-256 hash of its canonical encoding; [GetID] stores it in the
    cache, and every later call answers the stored digest without touching
    the envelope again. *)
Theorem GetID_is_hash_of_canonical_encoding
    (scheme : Scheme) (tx : EthereumTransaction) (d : EthereumTxData) :
  inner tx = Some d -> id tx = None ->
  EncodeCanonical tx = Some ((canonical d, None), tx) /\
  GetID scheme tx =
    Some (Success (Keccak256EthereumHash (canonical d)),
          cached tx (Keccak256EthereumHash (canonical d))) /\
  (forall scheme',
     GetID scheme' (cached tx (Keccak256EthereumHash (canonical d))) =
       Some (Success (Keccak256EthereumHash (canonical d)),
             cached tx (Keccak256EthereumHash (canonical d)))).
Proof.
  intros Hd Hid. split; [apply EncodeCanonical_canonical; exact Hd |]. split.
  - unfold GetID, GenerateID. unfold bind at 1, get at 1. rewrite Hid.
    unfold bind at 1. unfold bind at 1, get at 1. rewrite Hid.
    unfold bind at 1. rewrite (EncodeCanonical_canonical tx d Hd).
    run. unfold cached. cbn [id]. reflexivity.
  - intros scheme'. unfold GetID. run. unfold cached. cbn [id]. reflexivity.
Qed.

End Properties.

Section RoundTrip.
Context {ext : Externals} {valid : EthereumTxData -> Prop}.
Context {laws : CodecLaws ext valid}.

Lemma DecodeCanonical_canonical (d : EthereumTxData)
    (tx : EthereumTransaction) :
  valid d ->
  DecodeCanonical (canonical d) tx = Some (None, decoded tx d (canonical d)).
Proof.
  intros Hv.
  unfold canonical. destruct d as [l | a | f]; cbn [ethereumTxType Byte.eqb].
  - destruct (legacy_leading_byte l Hv) as [b [rest [E Hb]]].
    destruct (legacy_round_trip l Hv) as [v [Hp Hu]].
    change (Byte.eqb EthereumLegacyTxType EthereumLegacyTxType) with true.
    cbv iota. revert Hp. rewrite E. intros Hp.
    rewrite DecodeCanonical_cons.
    destruct (Z.ltb_spec 0x7f (byte_val b)); [| lia].
    rewrite Hp, Hu. reflexivity.
  - change (Byte.eqb EthereumAccessListTxType EthereumLegacyTxType) with false.
    cbv iota. rewrite MarshalTo_appends. cbn [app].
    rewrite DecodeCanonical_cons, decodeTypedCanonical_cons.
    change (0x7f <? byte_val EthereumAccessListTxType) with false.
    change (Byte.eqb EthereumAccessListTxType EthereumAccessListTxType)
      with true.
    cbv iota. rewrite (accessList_round_trip a Hv). reflexivity.
  - change (Byte.eqb EthereumDynamicFeeTxType EthereumLegacyTxType) with false.
    cbv iota. rewrite MarshalTo_appends. cbn [app].
    rewrite DecodeCanonical_cons, decodeTypedCanonical_cons.
    change (0x7f <? byte_val EthereumDynamicFeeTxType) with false.
    change (Byte.eqb EthereumDynamicFeeTxType EthereumAccessListTxType)
      with false.
    change (Byte.eqb EthereumDynamicFeeTxType EthereumDynamicFeeTxType)
      with true.
    cbv iota. rewrite (dynamicFee_round_trip f Hv). reflexivity.
Qed.

(** C1.  Decoding the canonical encoding of an envelope with a valid
    payload succeeds and yields that payload, with the length of the
    encoding recorded. *)
Theorem DecodeCanonical_EncodeCanonical
    (x tx : EthereumTransaction) (d : EthereumTxData) :
  inner x = Some d -> valid d ->
  exists canonicalData,
    EncodeCanonical x = Some ((canonicalData, None), x) /\
    DecodeCanonical canonicalData tx = Some (None, decoded tx d canonicalData).
Proof.
  intros Hd Hv. exists (canonical d).
  split; [apply EncodeCanonical_canonical; exact Hd |].
  apply DecodeCanonical_canonical. exact Hv.
Qed.

End RoundTrip.

(** ** The model meets the assumptions *)

Module ModelFacts.
Import Model.

Lemma byte_val_of (z : Z) : 0 <= z < 256 -> byte_val (byte_of z) = z.
Proof.
  intros Hz. unfold byte_val, byte_of.
  destruct (Byte.of_N (Z.to_N z)) as [b |] eqn:E.
  - apply Byte.to_of_N in E. rewrite E. lia.
  - apply Byte.of_N_None_iff in E. lia.
Qed.

Lemma be_value_step (bs : list byte) (n : Z) :
  fold_left (fun acc b => acc * 256 + byte_val b) bs n =
    n * 256 ^ len bs + be_value bs.
Proof.
  unfold be_value. revert n.
  induction bs as [| b bs IH]; intros n.
  - cbn. lia.
  - cbn [fold_left]. rewrite IH, (IH (0 * 256 + byte_val b)).
    rewrite len_cons, Z.pow_add_r by (pose proof (len_nonneg bs); lia).
    lia.
Qed.

Lemma be_digits_value (fuel : nat) :
  forall n acc, 0 <= n < 256 ^ Z.of_nat fuel ->
    fold_left (fun a b => a * 256 + byte_val b) (be_digits fuel n acc) 0 =
    fold_left (fun a b => a * 256 + byte_val b) acc n.
Proof.
  induction fuel as [| fuel IH]; intros n acc Hn.
  - cbn in Hn. assert (n = 0) by lia. subst. reflexivity.
  - cbn [be_digits]. destruct (Z.leb_spec n 0).
    + assert (n = 0) by lia. subst. reflexivity.
    + rewrite IH.
      * cbn [fold_left]. rewrite byte_val_of by (apply Z.mod_pos_bound; lia).
        f_equal. pose proof (Z.div_mod n 256). lia.
      * rewrite Nat2Z.inj_succ, Z.pow_succ_r in Hn by lia.
        split; [apply Z.div_pos; lia |].
        apply Z.div_lt_upper_bound; lia.
Qed.

Lemma log2_fuel (n : Z) : 0 <= n -> n < 256 ^ Z.of_nat (S (Z.to_nat (Z.log2 n))).
Proof.
  intros Hn. destruct (Z.eq_dec n 0) as [-> | Hz].
  - cbn. lia.
  - pose proof (Z.log2_nonneg n) as Hl.
    rewrite Nat2Z.inj_succ, Z2Nat.id by exact Hl.
    assert (H : n < 2 ^ Z.succ (Z.log2 n)) by (apply Z.log2_spec; lia).
    eapply Z.lt_le_trans; [exact H |].
    change 256 with (2 ^ 8). rewrite <- Z.pow_mul_r by lia.
    apply Z.pow_le_mono_r; lia.
Qed.

Lemma be_value_bytes (n : Z) : 0 <= n -> be_value (be_bytes n) = n.
Proof.
  intros Hn. unfold be_value, be_bytes.
  rewrite be_digits_value by (split; [exact Hn | apply log2_fuel; exact Hn]).
  reflexivity.
Qed.

Lemma be_digits_zero (fuel : nat) (acc : list byte) :
  be_digits fuel 0 acc = acc.
Proof. destruct fuel; reflexivity. Qed.

Lemma be_digits_leading (fuel : nat) :
  forall n acc, 0 < n < 256 ^ Z.of_nat fuel ->
    exists d rest, be_digits fuel n acc = d :: rest /\ byte_val d <> 0.
Proof.
  induction fuel as [| fuel IH]; intros n acc Hn.
  - cbn in Hn. lia.
  - cbn [be_digits]. destruct (Z.leb_spec n 0); [lia |].
    rewrite Nat2Z.inj_succ, Z.pow_succ_r in Hn by lia.
    destruct (Z.eq_dec (n / 256) 0) as [E | E].
    + rewrite E, be_digits_zero. eexists _, _. split; [reflexivity |].
      rewrite byte_val_of by (apply Z.mod_pos_bound; lia).
      pose proof (Z.div_mod n 256). lia.
    + apply IH. assert (0 <= n / 256) by (apply Z.div_pos; lia).
      split; [lia |]. apply Z.div_lt_upper_bound; lia.
Qed.

Lemma be_bytes_leading (n : Z) :
  0 < n -> exists d rest, be_bytes n = d :: rest /\ byte_val d <> 0.
Proof.
  intros Hn. apply be_digits_leading.
  split; [exact Hn | apply log2_fuel; lia].
Qed.

Lemma be_bytes_zero : be_bytes 0 = [].
Proof. reflexivity. Qed.

Lemma be_digits_length (fuel : nat) :
  forall n acc k, 0 <= n < 256 ^ Z.of_nat k ->
    (List.length (be_digits fuel n acc) <= k + List.length acc)%nat.
Proof.
  induction fuel as [| fuel IH]; intros n acc k Hn.
  - cbn. lia.
  - cbn [be_digits]. destruct (Z.leb_spec n 0); [lia |].
    destruct k as [| k]; [cbn in Hn; lia |].
    rewrite Nat2Z.inj_succ, Z.pow_succ_r in Hn by lia.
    specialize (IH (n / 256) (byte_of (n mod 256) :: acc) k).
    cbn [List.length] in IH.
    assert (0 <= n / 256) by (apply Z.div_pos; lia).
    assert (n / 256 < 256 ^ Z.of_nat k) by (apply Z.div_lt_upper_bound; lia).
    lia.
Qed.

Lemma be_bytes_length (n : Z) (k : nat) :
  0 <= n < 256 ^ Z.of_nat k -> len (be_bytes n) <= Z.of_nat k.
Proof.
  intros Hn. unfold len, be_bytes.
  pose proof (be_digits_length (S (Z.to_nat (Z.log2 n))) n [] k Hn) as H.
  cbn [List.length] in H. lia.
Qed.


Lemma len_app {A : Type} (a b : list A) : len (a ++ b) = len a + len b.
Proof. unfold len. rewrite length_app. lia. Qed.

Lemma take_app (a b : list byte) : take (len a) (a ++ b) = Some (a, b).
Proof.
  unfold take. rewrite len_app.
  pose proof (len_nonneg a). pose proof (len_nonneg b).
  destruct (Z.leb_spec 0 (len a)); [| lia].
  destruct (Z.leb_spec (len a) (len a + len b)); [| lia].
  cbn [andb]. unfold len. rewrite Nat2Z.id.
  rewrite firstn_app, Nat.sub_diag, firstn_all, firstn_O, app_nil_r.
  rewrite skipn_app, Nat.sub_diag, skipn_all, skipn_O. reflexivity.
Qed.

Lemma long_payload_ok (p rest : list byte) :
  55 < len p < 2 ^ 64 ->
  1 <= len (be_bytes (len p)) <= 8 /\
  long_payload (len (be_bytes (len p))) (be_bytes (len p) ++ p ++ rest) =
    Some (p, rest).
Proof.
  intros Hp.
  destruct (be_bytes_leading (len p)) as [d [lb [E Hd]]]; [lia |].
  pose proof (be_bytes_length (len p) 8) as Hl.
  split.
  - split; [rewrite E, len_cons; pose proof (len_nonneg lb); lia |].
    apply Hl. change (256 ^ Z.of_nat 8) with (2 ^ 64). lia.
  - unfold long_payload. rewrite take_app.
    pose proof (be_value_bytes (len p)) as Hv. rewrite E in Hv |- *.
    destruct (Z.eqb_spec (byte_val d) 0); [contradiction |].
    cbv zeta. rewrite Hv by lia.
    destruct (Z.leb_spec (len p) 55); [lia |].
    apply take_app.
Qed.

Lemma header_short (base n : Z) (rest : list byte) :
  0 <= n <= 55 -> 0 <= base -> base + 55 < 256 ->
  exists b, header base n ++ rest = b :: rest /\ byte_val b = base + n.
Proof.
  intros Hn Hb Hb'. unfold header.
  destruct (Z.leb_spec n 55); [| lia].
  eexists. split; [reflexivity |]. apply byte_val_of. lia.
Qed.

Lemma header_long (base : Z) (p rest : list byte) :
  55 < len p < 2 ^ 64 -> 0 <= base -> base + 63 < 256 ->
  exists b ll,
    header base (len p) ++ p ++ rest = b :: be_bytes (len p) ++ p ++ rest /\
    byte_val b = base + 55 + ll /\ 1 <= ll <= 8 /\
    long_payload ll (be_bytes (len p) ++ p ++ rest) = Some (p, rest).
Proof.
  intros Hp Hb Hb'. unfold header.
  destruct (Z.leb_spec (len p) 55); [lia |].
  destruct (long_payload_ok p rest Hp) as [Hll Hlp].
  eexists _, (len (be_bytes (len p))).
  split; [reflexivity |].
  split; [apply byte_val_of; lia |].
  split; [exact Hll | exact Hlp].
Qed.

Lemma parse_header_encode (v : Value) (rest : list byte) :
  len (payload v) < 2 ^ 64 ->
  parse_header (encode v ++ rest) = Some (is_list v, payload v, rest).
Proof.
  intros Hlen. destruct v as [bs | elems]; cbn [encode payload is_list] in *.
  - destruct (Z.leb_spec (len bs) 55) as [Hs | Hs].
    + destruct bs as [| b [| b2 bs']].
      * cbn.
        change (take 0 rest) with (take (len (@nil byte)) ([] ++ rest)).
        rewrite take_app. reflexivity.
      * destruct (Z.ltb_spec (byte_val b) 0x80) as [Hb | Hb].
        -- cbn [app parse_header]. cbv zeta.
           destruct (Z.ltb_spec (byte_val b) 0x80); [reflexivity | lia].
        -- destruct (header_short 0x80 1 ([b] ++ rest)) as [h [E Hh]];
             try lia.
           rewrite <- app_assoc, E. cbn [parse_header]. cbv zeta. rewrite Hh.
           change (0x80 + 1 <? 0x80) with false.
           change (0x80 + 1 <? 0xb8) with true. cbv iota.
           change (0x80 + 1 - 0x80) with (len [b]).
           rewrite take_app.
           destruct (Z.ltb_spec (byte_val b) 0x80); [lia | reflexivity].
      * remember (b :: b2 :: bs') as bs eqn:Ebs.
        pose proof (len_nonneg bs).
        destruct (header_short 0x80 (len bs) (bs ++ rest)) as [h [E Hh]];
          try lia.
        rewrite <- app_assoc, E. cbn [parse_header]. cbv zeta.
        rewrite Hh.
        destruct (Z.ltb_spec (0x80 + len bs) 0x80); [lia |].
        destruct (Z.ltb_spec (0x80 + len bs) 0xb8); [| lia].
        replace (0x80 + len bs - 0x80) with (len bs) by lia.
        rewrite take_app. subst bs. reflexivity.
    + assert (Eenc : match bs with
                     | [c] => if byte_val c <? 0x80 then [c]
                              else header 0x80 1 ++ bs
                     | _ => header 0x80 (len bs) ++ bs
                     end = header 0x80 (len bs) ++ bs).
      { destruct bs as [| b [| b2 bs']]; try reflexivity.
        cbn in Hs. lia. }
      rewrite Eenc, <- app_assoc.
      destruct (header_long 0x80 bs rest) as [h [ll [E [Hh [Hll Hlp]]]]];
        try lia.
      rewrite E. cbn [parse_header]. cbv zeta. rewrite Hh.
      destruct (Z.ltb_spec (0x80 + 55 + ll) 0x80); [lia |].
      destruct (Z.ltb_spec (0x80 + 55 + ll) 0xb8); [lia |].
      destruct (Z.ltb_spec (0x80 + 55 + ll) 0xc0); [| lia].
      replace (0x80 + 55 + ll - 0xb7) with ll by lia.
      rewrite Hlp. reflexivity.
  - cbv zeta. remember (flat_map encode elems) as p eqn:Ep.
    rewrite <- app_assoc. pose proof (len_nonneg p).
    destruct (Z.leb_spec (len p) 55) as [Hs | Hs].
    + destruct (header_short 0xc0 (len p) (p ++ rest)) as [h [E Hh]];
        try lia.
      rewrite E. cbn [parse_header]. cbv zeta. rewrite Hh.
      destruct (Z.ltb_spec (0xc0 + len p) 0x80); [lia |].
      destruct (Z.ltb_spec (0xc0 + len p) 0xb8); [lia |].
      destruct (Z.ltb_spec (0xc0 + len p) 0xc0); [lia |].
      destruct (Z.ltb_spec (0xc0 + len p) 0xf8); [| lia].
      replace (0xc0 + len p - 0xc0) with (len p) by lia.
      rewrite take_app. reflexivity.
    + destruct (header_long 0xc0 p rest) as [h [ll [E [Hh [Hll Hlp]]]]];
        try lia.
      rewrite E. cbn [parse_header]. cbv zeta. rewrite Hh.
      destruct (Z.ltb_spec (0xc0 + 55 + ll) 0x80); [lia |].
      destruct (Z.ltb_spec (0xc0 + 55 + ll) 0xb8); [lia |].
      destruct (Z.ltb_spec (0xc0 + 55 + ll) 0xc0); [lia |].
      destruct (Z.ltb_spec (0xc0 + 55 + ll) 0xf8); [lia |].
      replace (0xc0 + 55 + ll - 0xf7) with ll by lia.
      rewrite Hlp. reflexivity.
Qed.

Lemma header_length (base n : Z) : (1 <= List.length (header base n))%nat.
Proof. unfold header. destruct (n <=? 55); cbn [List.length]; lia. Qed.

Lemma encode_length (v : Value) :
  (1 <= List.length (encode v))%nat /\
  (is_list v = true ->
   List.length (payload v) < List.length (encode v))%nat /\
  (List.length (payload v) <= List.length (encode v))%nat.
Proof.
  destruct v as [bs | elems]; cbn [encode payload is_list].
  - assert (H : forall base n,
              (1 <= List.length (header base n ++ bs))%nat /\
              (List.length bs <= List.length (header base n ++ bs))%nat).
    { intros base n. rewrite length_app.
      pose proof (header_length base n). lia. }
    destruct bs as [| b [| b2 bs']];
      try (destruct (byte_val b <? 0x80); [cbn; lia |]);
      (split; [apply H | split; [discriminate | apply H]]).
  - cbv zeta. rewrite length_app.
    pose proof (header_length 0xc0 (len (flat_map encode elems))). lia.
Qed.

Lemma parse_seq_encode (fuel : nat) :
  forall vs,
    (List.length (flat_map encode vs) <= fuel)%nat ->
    len (flat_map encode vs) < 2 ^ 64 ->
    parse_seq fuel (flat_map encode vs) = Some vs.
Proof.
  induction fuel as [| fuel IH]; intros vs Hfuel Hlen;
    destruct vs as [| v vs']; try reflexivity.
  - cbn [flat_map] in Hfuel. rewrite length_app in Hfuel.
    pose proof (encode_length v). lia.
  - cbn [flat_map] in *.
    destruct (encode_length v) as [H1 [Hlist Hpay]].
    rewrite length_app in Hfuel. rewrite len_app in Hlen.
    pose proof (len_nonneg (flat_map encode vs')) as Hrest.
    assert (Hp : len (payload v) < 2 ^ 64) by (unfold len in *; lia).
    remember (encode v ++ flat_map encode vs') as bs eqn:Ebs.
    destruct bs as [| b0 bs0].
    { destruct (encode v); [cbn in H1; lia | discriminate]. }
    cbn [parse_seq]. rewrite Ebs, (parse_header_encode v _ Hp).
    destruct v as [p | elems]; cbn [is_list payload] in *.
    + rewrite IH by (unfold len in *; lia). reflexivity.
    + specialize (Hlist eq_refl).
      rewrite (IH elems) by (unfold len in *; lia).
      rewrite (IH vs') by (unfold len in *; lia). reflexivity.
Qed.

Lemma Parse_encode (v : Value) :
  len (encode v) < 2 ^ 64 -> Parse (encode v) = Success v.
Proof.
  intros Hlen. unfold Parse.
  pose proof (parse_seq_encode (List.length (encode v)) [v]) as H.
  cbn [flat_map] in H. rewrite app_nil_r in H.
  rewrite H by (try exact Hlen; lia). reflexivity.
Qed.

Lemma canonical_int_be_bytes (n : Z) : 0 <= n -> canonical_int (be_bytes n) = true.
Proof.
  intros Hn. destruct (Z.eq_dec n 0) as [-> | Hz]; [reflexivity |].
  destruct (be_bytes_leading n) as [d [rest [E Hd]]]; [lia |].
  rewrite E. cbn [canonical_int].
  destruct (Z.eqb_spec (byte_val d) 0); [contradiction | reflexivity].
Qed.

Lemma GetUint64_NewUint (n : Z) :
  uint64_ok n -> GetUint64 (NewUint n) = Success n.
Proof.
  intros [H0 H1]. unfold GetUint64, NewUint.
  rewrite canonical_int_be_bytes by exact H0.
  pose proof (be_bytes_length n 8) as Hl.
  change (256 ^ Z.of_nat 8) with (2 ^ 64) in Hl.
  destruct (Z.leb_spec (len (be_bytes n)) 8); [| lia].
  cbn [andb]. rewrite be_value_bytes by exact H0. reflexivity.
Qed.

Lemma GetBigInt_NewBigInt (n : Z) :
  0 <= n -> GetBigInt (NewBigInt n) = Success n.
Proof.
  intros H0. unfold GetBigInt, NewBigInt.
  rewrite canonical_int_be_bytes, be_value_bytes by exact H0. reflexivity.
Qed.

Lemma unmarshalTo_marshalTo (t : option EthereumAddress) :
  to_ok t -> unmarshalTo (marshalTo t) = Success t.
Proof.
  destruct t as [a |]; cbn [to_ok marshalTo unmarshalTo].
  - intros Ha. destruct a as [| b a']; [cbn in Ha; lia |].
    rewrite Ha. reflexivity.
  - reflexivity.
Qed.

Lemma traverse_map {A B : Type} (f : B -> result A) (g : A -> B)
    (P : A -> Prop) (l : list A) :
  (forall a, P a -> f (g a) = Success a) ->
  Forall P l -> traverse f (map g l) = Success l.
Proof.
  intros Hfg Hl. induction Hl as [| a l Ha Hl IH]; [reflexivity |].
  cbn [map traverse]. rewrite (Hfg a Ha). cbn [and_then].
  rewrite IH. reflexivity.
Qed.

Lemma unmarshalAccessList_marshalAccessList (al : EthereumAccessList) :
  accessList_ok al ->
  unmarshalAccessList (marshalAccessList al) = Success al.
Proof.
  intros Hal. unfold unmarshalAccessList, marshalAccessList.
  apply (traverse_map unmarshalTuple _
           (fun t => len (fst t) = 20 /\ Forall (fun k => len k = 32) (snd t)));
    [| exact Hal].
  intros [addr keys] [Ha Hk]. cbn [fst snd] in *.
  cbn [unmarshalTuple]. rewrite Ha. cbn [Z.eqb Pos.eqb].
  rewrite (traverse_map unmarshalKey Bytes (fun k => len k = 32) keys);
    [reflexivity | | exact Hk].
  intros k Hk32. cbn [unmarshalKey]. rewrite Hk32. reflexivity.
Qed.

Lemma unmarshal_legacy (l : EthereumLegacyTx.t) :
  fields_ok (LegacyTx l) ->
  unmarshalFromFastRLP (marshalToFastRLP (LegacyTx l)) = Success l.
Proof.
  destruct l as [n gp g t v d sv r s]. cbn [fields_ok marshalToFastRLP
    EthereumLegacyTx.Nonce EthereumLegacyTx.GasPrice EthereumLegacyTx.Gas
    EthereumLegacyTx.To EthereumLegacyTx.Value EthereumLegacyTx.Data
    EthereumLegacyTx.V EthereumLegacyTx.R EthereumLegacyTx.S].
  intros [Hn [Hgp [Hg [Ht [Hv [Hsv [Hr Hs]]]]]]].
  destruct sv as [sv |]; [| contradiction].
  cbn [unmarshalFromFastRLP].
  rewrite !GetUint64_NewUint, !GetBigInt_NewBigInt, unmarshalTo_marshalTo
    by assumption.
  reflexivity.
Qed.

Lemma unmarshal_accessList (a : EthereumAccessListTx.t) :
  fields_ok (AccessListTx a) ->
  unmarshalAccessListTx (marshalToFastRLP (AccessListTx a)) = Success a.
Proof.
  destruct a as [c n gp g t v d al sv r s]. cbn [fields_ok marshalToFastRLP
    EthereumAccessListTx.ChainID EthereumAccessListTx.Nonce
    EthereumAccessListTx.GasPrice EthereumAccessListTx.Gas
    EthereumAccessListTx.To EthereumAccessListTx.Value
    EthereumAccessListTx.Data EthereumAccessListTx.AccessList
    EthereumAccessListTx.V EthereumAccessListTx.R EthereumAccessListTx.S].
  intros [Hc [Hn [Hgp [Hg [Ht [Hv [Hal [Hsv [Hr Hs]]]]]]]]].
  cbn [unmarshalAccessListTx].
  rewrite !GetUint64_NewUint, !GetBigInt_NewBigInt, unmarshalTo_marshalTo,
    unmarshalAccessList_marshalAccessList by assumption.
  reflexivity.
Qed.

Lemma unmarshal_dynamicFee (f : EthereumDynamicFeeTx.t) :
  fields_ok (DynamicFeeTx f) ->
  unmarshalDynamicFeeTx (marshalToFastRLP (DynamicFeeTx f)) = Success f.
Proof.
  destruct f as [c n tip cap g t v d al sv r s]. cbn [fields_ok
    marshalToFastRLP
    EthereumDynamicFeeTx.ChainID EthereumDynamicFeeTx.Nonce
    EthereumDynamicFeeTx.GasTipCap EthereumDynamicFeeTx.GasFeeCap
    EthereumDynamicFeeTx.Gas EthereumDynamicFeeTx.To
    EthereumDynamicFeeTx.Value EthereumDynamicFeeTx.Data
    EthereumDynamicFeeTx.AccessList
    EthereumDynamicFeeTx.V EthereumDynamicFeeTx.R EthereumDynamicFeeTx.S].
  intros [Hc [Hn [Htip [Hcap [Hg [Ht [Hv [Hal [Hsv [Hr Hs]]]]]]]]]].
  cbn [unmarshalDynamicFeeTx].
  rewrite !GetUint64_NewUint, !GetBigInt_NewBigInt, unmarshalTo_marshalTo,
    unmarshalAccessList_marshalAccessList by assumption.
  reflexivity.
Qed.

(** A serialized list starts with a byte from 0xc0. *)
Lemma encode_array_leading (elems : list Value) :
  len (flat_map encode elems) < 2 ^ 64 ->
  exists b rest, encode (Array elems) = b :: rest /\ 0x7f < byte_val b.
Proof.
  intros Hlen. cbn [encode]. cbv zeta.
  remember (flat_map encode elems) as p eqn:Ep.
  pose proof (len_nonneg p). unfold header.
  destruct (Z.leb_spec (len p) 55).
  - eexists _, _. split; [reflexivity |]. rewrite byte_val_of; lia.
  - destruct (long_payload_ok p [] (conj H0 Hlen)) as [Hll _].
    eexists _, _. split; [reflexivity |]. rewrite byte_val_of; lia.
Qed.
End ModelFacts.

Lemma model_laws : CodecLaws model Model.valid.
Proof.
  split.
  - intros v dst. reflexivity.
  - intros l [Hf Hlen]. apply ModelFacts.encode_array_leading.
    cbn [MarshalTo model Model.MarshalTo marshalToFastRLP
         Model.marshalToFastRLP app Model.encode] in Hlen.
    cbv zeta in Hlen. rewrite ModelFacts.len_app in Hlen.
    pose proof (len_nonneg (Model.header 192
      (len (flat_map Model.encode
         (match Model.marshalToFastRLP (LegacyTx l) with
          | Model.Array elems => elems
          | Model.Bytes _ => []
          end))))) as H.
    cbn [Model.marshalToFastRLP] in H. lia.
  - intros l [Hf Hlen]. exists (Model.marshalToFastRLP (LegacyTx l)). split.
    + apply ModelFacts.Parse_encode. exact Hlen.
    + apply ModelFacts.unmarshal_legacy. exact Hf.
  - intros a [Hf Hlen].
    cbn [AccessListTx_DecodeRLP model MarshalTo marshalToFastRLP].
    unfold Model.AccessListTx_DecodeRLP, Model.MarshalTo. cbn [app].
    rewrite ModelFacts.Parse_encode by exact Hlen. cbn [Model.and_then].
    apply ModelFacts.unmarshal_accessList. exact Hf.
  - intros f [Hf Hlen].
    cbn [DynamicFeeTx_DecodeRLP model MarshalTo marshalToFastRLP].
    unfold Model.DynamicFeeTx_DecodeRLP, Model.MarshalTo. cbn [app].
    rewrite ModelFacts.Parse_encode by exact Hlen. cbn [Model.and_then].
    apply ModelFacts.unmarshal_dynamicFee. exact Hf.
Qed.

(** The empty message and "abc" hash to the published Keccak-256 digests. *)
Example Keccak256_empty :
  map byte_val (Keccak.Keccak256 []) =
    [0xc5; 0xd2; 0x46; 0x01; 0x86; 0xf7; 0x23; 0x3c;
     0x92; 0x7e; 0x7d; 0xb2; 0xdc; 0xc7; 0x03; 0xc0;
     0xe5; 0x00; 0xb6; 0x53; 0xca; 0x82; 0x27; 0x3b;
     0x7b; 0xfa; 0xd8; 0x04; 0x5d; 0x85; 0xa4; 0x70].
Proof. vm_compute. reflexivity. Qed.

Example Keccak256_abc :
  map byte_val (Keccak.Keccak256 [x61; x62; x63]) =
    [0x4e; 0x03; 0x65; 0x7a; 0xea; 0x45; 0xa9; 0x4f;
     0xc7; 0xd4; 0x7b; 0xa8; 0x26; 0xc8; 0xd6; 0x67;
     0xc0; 0xd1; 0xe6; 0xe3; 0x3a; 0x64; 0xa0; 0x36;
     0xec; 0x44; 0xf5; 0x8f; 0xa1; 0x2d; 0x6c; 0x45].
Proof. vm_compute. reflexivity. Qed.

(** ** The properties on the example envelopes *)

#[local] Existing Instance model.

Lemma fields_ok_legacy (weiValue : Z) (callData : list byte) :
  0 <= weiValue -> Model.fields_ok (LegacyTx (legacy weiValue callData)).
Proof.
  intros Hv. cbn. unfold Model.uint64_ok.
  repeat split; try lia; reflexivity.
Qed.

Lemma canonical_legacy (l : EthereumLegacyTx.t) :
  canonical (ext := model) (LegacyTx l) =
    Model.encode (Model.marshalToFastRLP (LegacyTx l)).
Proof. reflexivity. Qed.

Lemma received_inner (d : EthereumTxData) : inner (received d) = Some d.
Proof. reflexivity. Qed.

Lemma received_size (d : EthereumTxData) :
  innerBinarySize (received d) = len (canonical (ext := model) d).
Proof. reflexivity. Qed.

Lemma oversized_len :
  len (canonical (ext := model) (LegacyTx oversized)) = 1048627.
Proof. vm_compute. reflexivity. Qed.

Lemma valid_scenarioA : Model.valid (LegacyTx scenarioA).
Proof.
  split; [apply fields_ok_legacy; lia |].
  vm_compute. reflexivity.
Qed.

Lemma valid_oversized : Model.valid (LegacyTx oversized).
Proof.
  split.
  - apply fields_ok_legacy. lia.
  - rewrite <- canonical_legacy, oversized_len. lia.
Qed.

(** Each example envelope is what [DecodeCanonical] makes of the
    canonical bytes of its payload. *)
Lemma received_is_decoded (d : EthereumTxData) :
  Model.valid d ->
  DecodeCanonical (ext := model) (canonical (ext := model) d) fresh =
    Some (None, received d).
Proof.
  intros Hv. apply (DecodeCanonical_canonical (laws := model_laws)). exact Hv.
Qed.

(** The round trip on scenario A. *)
Lemma DecodeCanonical_EncodeCanonical_scenarioA :
  exists canonicalData,
    EncodeCanonical (ext := model) (received (LegacyTx scenarioA)) =
      Some ((canonicalData, None), received (LegacyTx scenarioA)) /\
    DecodeCanonical (ext := model) canonicalData fresh =
      Some (None, decoded fresh (LegacyTx scenarioA) canonicalData).
Proof.
  apply (DecodeCanonical_EncodeCanonical (laws := model_laws)).
  - reflexivity.
  - exact valid_scenarioA.
Defined.

(** An oversized envelope presented to a node of chain 84: the chain id is
    what is reported. *)
Lemma Validate_foreign_and_oversized :
  Validate (ext := model) 84 (received (LegacyTx oversized)) =
    Some (Failure (errChainMismatch 84 (LegacyTx oversized)),
          received (LegacyTx oversized)).
Proof.
  apply (Validate_reports_first_failing_rule (ext := model) 84
           (received (LegacyTx oversized)) (LegacyTx oversized)
           (received_inner _)).
  - vm_compute. discriminate.
  - rewrite received_size, oversized_len. lia.
Defined.

(** A decodable envelope that passes rules 1 to 4, whose value, 2^63
    wavelets, is not negative, and whose gas price is 1 Gwei: the first of
    the ten rules that does not pass is the gas-price rule, and [Validate]
    reports the failure of the conversion, which is the error of none of
    the ten rules. *)
Lemma Validate_reports_the_conversion_before_the_gas_price :
  DecodeCanonical (canonical (LegacyTx tooManyWavesAtOneGwei)) fresh =
    Some (None, received (LegacyTx tooManyWavesAtOneGwei)) /\
  all_pass (rules_1_to_4 87 (received (LegacyTx tooManyWavesAtOneGwei))
              (LegacyTx tooManyWavesAtOneGwei)) /\
  value (LegacyTx tooManyWavesAtOneGwei) / Model.diffEthWaves = 2 ^ 63 /\
  first_failure (rules_5_to_10 (LegacyTx tooManyWavesAtOneGwei) (2 ^ 63)) =
    Some errGasPrice /\
  Validate 87 (received (LegacyTx tooManyWavesAtOneGwei)) =
    Some (Failure (NewFeeValidation
                     (ErrorText
                        (errors_New
                           (Sprintf "too many waves: %d" [IntArg (2 ^ 63)])))),
          received (LegacyTx tooManyWavesAtOneGwei)) /\
  (forall wavelets,
     ~ In (NewFeeValidation
             (ErrorText
                (errors_New
                   (Sprintf "too many waves: %d" [IntArg (2 ^ 63)]))))
          (map snd
             (rules_1_to_4 87 (received (LegacyTx tooManyWavesAtOneGwei))
                (LegacyTx tooManyWavesAtOneGwei) ++
              rules_5_to_10 (LegacyTx tooManyWavesAtOneGwei) wavelets))).
Proof.
  split.
  { apply received_is_decoded. split; [| vm_compute; reflexivity].
    cbn. unfold Model.uint64_ok. repeat split; try lia; reflexivity. }
  split; [reflexivity |]. split; [reflexivity |]. split; [reflexivity |].
  split.
  - rewrite (Validate_by_rules 87 _ _
               (received_inner (LegacyTx tooManyWavesAtOneGwei))).
    reflexivity.
  - intros wavelets H. cbn [rules_1_to_4 rules_5_to_10 map app snd In] in H.
    repeat (destruct H as [H | H]; [discriminate H |]). exact H.
Qed.

(** Scenario A is accepted on chain 87. *)
Lemma Validate_scenario_A_accepted :
  Validate (ext := model) 87 (received (LegacyTx scenarioA)) =
    Some (Success (received (LegacyTx scenarioA)),
          received (LegacyTx scenarioA)).
Proof.
  apply (Validate_scenario_A (ext := model) 87
           (received (LegacyTx scenarioA)) scenarioA).
  - reflexivity.
  - reflexivity.
  - discriminate.
  - reflexivity.
  - reflexivity.
  - discriminate.
  - reflexivity.
  - reflexivity.
  - vm_compute. discriminate.
  - exists 0. split; [reflexivity | lia].
Defined.

(** A legacy envelope that has every property of scenario A, is what
    [DecodeCanonical] makes of its canonical bytes, and is refused: its call
    data of 1 MiB make the recorded length exceed the limit of rule 3. *)
Lemma Validate_scenario_A_oversized :
  DecodeCanonical (ext := model)
      (canonical (ext := model) (LegacyTx oversized)) fresh =
    Some (None, received (LegacyTx oversized)) /\
  EthereumLegacyTx.Value oversized = 0 /\
  (exists b rest, EthereumLegacyTx.Data oversized = b :: rest) /\
  EthereumLegacyTx.GasPrice oversized = EthereumGasPrice /\
  EthereumLegacyTx.Gas oversized = 21000 /\
  (exists a, EthereumLegacyTx.To oversized = Some a) /\
  EthereumLegacyTx.Nonce oversized = 1 /\
  chainID (LegacyTx oversized) = 87 /\
  Validate (ext := model) 87 (received (LegacyTx oversized)) =
    Some (Failure errOversized, received (LegacyTx oversized)).
Proof.
  split; [apply received_is_decoded; exact valid_oversized |].
  split; [reflexivity |].
  split; [eexists; eexists; reflexivity |].
  split; [reflexivity |].
  split; [reflexivity |].
  split; [eexists; reflexivity |].
  split; [reflexivity |].
  split; [reflexivity |].
  rewrite (Validate_by_rules (ext := model) 87 _ _
             (received_inner (LegacyTx oversized))).
  cbn [rules_1_to_4 first_failure].
  rewrite received_size, oversized_len. reflexivity.
Qed.

(** The id of scenario A as received. *)
Lemma GetID_scenarioA :
  EncodeCanonical (ext := model) (received (LegacyTx scenarioA)) =
    Some ((canonical (ext := model) (LegacyTx scenarioA), None),
          received (LegacyTx scenarioA)) /\
  GetID (ext := model) 87 (received (LegacyTx scenarioA)) =
    Some (Success (Keccak256EthereumHash
                     (canonical (ext := model) (LegacyTx scenarioA))),
          cached (received (LegacyTx scenarioA))
            (Keccak256EthereumHash
               (canonical (ext := model) (LegacyTx scenarioA)))) /\
  (forall scheme',
     GetID (ext := model) scheme'
         (cached (received (LegacyTx scenarioA))
            (Keccak256EthereumHash
               (canonical (ext := model) (LegacyTx scenarioA)))) =
       Some (Success (Keccak256EthereumHash
                        (canonical (ext := model) (LegacyTx scenarioA))),
             cached (received (LegacyTx scenarioA))
               (Keccak256EthereumHash
                  (canonical (ext := model) (LegacyTx scenarioA))))).
Proof.
  apply (GetID_is_hash_of_canonical_encoding (ext := model) 87
           (received (LegacyTx scenarioA)) (LegacyTx scenarioA));
    reflexivity.
Defined.

(** Neither value nor data, both value and data, and a negative value, each
    on an envelope that passes rules 1 to 4. *)
Lemma Validate_payload_shape_examples :
  Validate 87 (received (LegacyTx cancellation)) =
    Some (Failure errCancellation, received (LegacyTx cancellation)) /\
  Validate 87 (received (LegacyTx valueAndData)) =
    Some (Failure errDataAndValue, received (LegacyTx valueAndData)) /\
  Validate 87 (received (LegacyTx negativeValue)) =
    Some (Failure (NewNonPositiveAmount (-1) "waves"),
          received (LegacyTx negativeValue)).
Proof.
  split; [| split].
  - apply (proj1 (proj2 (Validate_payload_shape 87
                           (received (LegacyTx cancellation))
                           (LegacyTx cancellation) eq_refl)) 0);
      [reflexivity | reflexivity | lia | reflexivity | reflexivity].
  - apply (proj1 (proj2 (proj2 (Validate_payload_shape 87
                                  (received (LegacyTx valueAndData))
                                  (LegacyTx valueAndData) eq_refl))) 1);
      [reflexivity | reflexivity | lia | discriminate | discriminate].
  - apply (proj2 (proj2 (proj2 (Validate_payload_shape 87
                                  (received (LegacyTx negativeValue))
                                  (LegacyTx negativeValue) eq_refl))) (-1));
      [reflexivity | reflexivity | lia].
Defined.

(** The conversion step on a negative value. *)
Lemma Validate_conversion_step_negative :
  (forall amount asset,
     Validate 87 (received (LegacyTx negativeValue)) =
       Some (Failure (NewNonPositiveAmount amount asset),
             received (LegacyTx negativeValue))
     <-> (EthereumWeiToWavelet (value (LegacyTx negativeValue)) =
            Success amount /\ amount < 0 /\ asset = "waves")) /\
  (forall err,
     EthereumWeiToWavelet (value (LegacyTx negativeValue)) = Failure err ->
     Validate 87 (received (LegacyTx negativeValue)) =
       Some (Failure (NewFeeValidation (ErrorText err)),
             received (LegacyTx negativeValue))).
Proof.
  apply (Validate_conversion_step 87 (received (LegacyTx negativeValue))
           (LegacyTx negativeValue)); reflexivity.
Defined.

(** An envelope that passes rules 1 to 4 and whose value is beyond the
    amounts of the ledger: the conversion fails, and [Validate] answers with
    a fee-validation error, which is not the non-positive-amount error. *)
Lemma Validate_too_many_waves :
  DecodeCanonical (canonical (LegacyTx tooManyWaves)) fresh =
    Some (None, received (LegacyTx tooManyWaves)) /\
  all_pass (rules_1_to_4 87 (received (LegacyTx tooManyWaves))
              (LegacyTx tooManyWaves)) /\
  EthereumWeiToWavelet (value (LegacyTx tooManyWaves)) =
    Failure (errors_New (Sprintf "too many waves: %d" [IntArg (2 ^ 63)])) /\
  Validate 87 (received (LegacyTx tooManyWaves)) =
    Some (Failure (NewFeeValidation
                     (ErrorText
                        (errors_New
                           (Sprintf "too many waves: %d" [IntArg (2 ^ 63)])))),
          received (LegacyTx tooManyWaves)).
Proof.
  split.
  - apply received_is_decoded. split; [apply fields_ok_legacy; lia |].
    vm_compute. reflexivity.
  - split; [reflexivity |]. split; [reflexivity |].
    rewrite (Validate_by_rules 87 _ _ (received_inner (LegacyTx tooManyWaves))).
    reflexivity.
Qed.

(** The tag 0x03 is refused. *)
Lemma DecodeCanonical_dispatch_unknown_tag :
  DecodeCanonical [x03] fresh =
    Some (Some (wrapTyped ErrTxTypeNotSupported), fresh) /\
  errors_Cause (wrapTyped ErrTxTypeNotSupported) = ErrTxTypeNotSupported.
Proof.
  apply (DecodeCanonical_dispatch x03 [] fresh).
  - vm_compute. discriminate.
  - discriminate.
  - discriminate.
Defined.

(** Scenario A carries v = 209 = 2 * 87 + 35 and is protected; 27 is not. *)
Lemma Protected_examples :
  (exists p, Protected (received (LegacyTx scenarioA)) =
               Some (p, received (LegacyTx scenarioA)) /\
     (BitLen 209 <= 8 ->
        (p = true <-> 209 <> 0 /\ 209 <> 1 /\ 209 <> 27 /\ 209 <> 28)) /\
     (8 < BitLen 209 -> p = true)) /\
  (exists p, Protected (received (LegacyTx unprotected)) =
               Some (p, received (LegacyTx unprotected)) /\
     (BitLen 27 <= 8 ->
        (p = true <-> 27 <> 0 /\ 27 <> 1 /\ 27 <> 27 /\ 27 <> 28)) /\
     (8 < BitLen 27 -> p = true)).
Proof.
  split.
  - apply (Protected_spec (received (LegacyTx scenarioA))) with (l := scenarioA);
      [reflexivity | reflexivity | lia].
  - apply (Protected_spec (received (LegacyTx unprotected)))
      with (l := unprotected); [reflexivity | reflexivity | lia].
Defined.

(** A refused input and a refused envelope, each with the envelope it
    leaves. *)
Lemma failure_leaves_scenarioA_unchanged :
  (DecodeCanonical [x03] (received (LegacyTx scenarioA)) =
     Some (Some (wrapTyped ErrTxTypeNotSupported),
           received (LegacyTx scenarioA)) /\
   received (LegacyTx scenarioA) = received (LegacyTx scenarioA)) /\
  (Validate 87 (received (LegacyTx cancellation)) =
     Some (Failure errCancellation, received (LegacyTx cancellation)) /\
   received (LegacyTx cancellation) = received (LegacyTx cancellation)).
Proof.
  split; (split; [reflexivity |]).
  - apply (proj1 (failure_leaves_envelope_unchanged [x03] 87
                    (received (LegacyTx scenarioA)))
             (wrapTyped ErrTxTypeNotSupported)).
    reflexivity.
  - apply (proj2 (failure_leaves_envelope_unchanged [] 87
                    (received (LegacyTx cancellation))) errCancellation).
    reflexivity.
Defined.

(** * Further properties of the envelope's methods *)

Section ValidationFacts.
Context {ext : Externals}.

(** X1.  [isProtectedV] reads the magnitude of [V] only: it answers true
    exactly when the magnitude is none of 0, 1, 27 and 28, so a value and
    its negation get the same answer. *)
Theorem isProtectedV_reads_magnitude (V : Z) :
  (isProtectedV V = true <->
     Z.abs V <> 0 /\ Z.abs V <> 1 /\ Z.abs V <> 27 /\ Z.abs V <> 28) /\
  isProtectedV (- V) = isProtectedV V.
Proof.
  assert (Hmag : forall v,
            isProtectedV v = true <->
              Z.abs v <> 0 /\ Z.abs v <> 1 /\ Z.abs v <> 27 /\ Z.abs v <> 28).
  { intros v. unfold isProtectedV, BitLen, Uint64.
    destruct (Z.eqb_spec v 0) as [-> | Hv0].
    - cbn. split; [discriminate | intros [H _]; contradiction].
    - assert (Hpos : 0 < Z.abs v) by lia.
      destruct (Z.leb_spec (Z.log2 (Z.abs v) + 1) 8) as [Hb | Hb].
      + assert (Hlt : Z.abs v < 2 ^ 8).
        { apply Z.log2_lt_pow2; [exact Hpos | lia]. }
        cbv zeta. rewrite (Z.mod_small (Z.abs v) (2 ^ 64)) by lia.
        destruct (Z.eqb_spec (Z.abs v) 27), (Z.eqb_spec (Z.abs v) 28),
          (Z.eqb_spec (Z.abs v) 1), (Z.eqb_spec (Z.abs v) 0);
          cbn [negb andb]; split; try discriminate; try reflexivity;
          intros; lia.
      + assert (Hge : 2 ^ 8 <= Z.abs v).
        { destruct (Z.lt_ge_cases (Z.abs v) (2 ^ 8)) as [Hlt | Hge];
            [| exact Hge].
          apply Z.log2_lt_pow2 in Hlt; [lia | exact Hpos]. }
        split; [intros _; lia | reflexivity]. }
  split; [apply Hmag |].
  destruct (isProtectedV V) eqn:E1, (isProtectedV (- V)) eqn:E2;
    try reflexivity.
  - apply Hmag in E1. assert (E : isProtectedV (- V) = true).
    { apply Hmag. rewrite Z.abs_opp. exact E1. }
    congruence.
  - apply Hmag in E2. rewrite Z.abs_opp in E2. apply Hmag in E2. congruence.
Qed.

Lemma Validate_nil (scheme : Scheme) (tx : EthereumTransaction) :
  inner tx = None -> Validate scheme tx = None.
Proof. intros Hd. unfold Validate. run. rewrite Hd. reflexivity. Qed.

(** X2.  [Validate] panics exactly on an envelope without a payload. *)
Theorem Validate_panics_without_payload
    (scheme : Scheme) (tx : EthereumTransaction) :
  Validate scheme tx = None <-> inner tx = None.
Proof.
  destruct (inner tx) as [d |] eqn:Hd.
  - rewrite (Validate_by_rules scheme tx d Hd). split; discriminate.
  - split; [reflexivity | intros _]. apply Validate_nil. exact Hd.
Qed.

(** X3.  What [Validate] accepts passes every rule: the payload is legacy
    and of the node's chain, the recorded length is at most 1 MiB, the gas
    limit and the nonce are positive, the value converts to a non-negative
    amount, exactly one of value and data is set, the gas price is 10 Gwei
    and there is a recipient.  The transaction returned is the receiver. *)
Theorem Validate_accepts_only_what_passes_every_rule
    (scheme : Scheme) (tx tx' tx'' : EthereumTransaction) :
  Validate scheme tx = Some (Success tx', tx'') ->
  tx' = tx /\ tx'' = tx /\
  exists l wavelets,
    inner tx = Some (LegacyTx l) /\
    chainID (LegacyTx l) = scheme /\
    innerBinarySize tx <= 1024 * 1024 /\
    0 < EthereumLegacyTx.Gas l /\
    EthereumWeiToWavelet (EthereumLegacyTx.Value l) = Success wavelets /\
    0 <= wavelets /\
    ((EthereumLegacyTx.Value l = 0 /\ EthereumLegacyTx.Data l <> []) \/
     (EthereumLegacyTx.Value l <> 0 /\ EthereumLegacyTx.Data l = [])) /\
    EthereumLegacyTx.GasPrice l = EthereumGasPrice /\
    (exists a, EthereumLegacyTx.To l = Some a) /\
    0 < EthereumLegacyTx.Nonce l.
Proof.
  destruct (inner tx) as [d |] eqn:Hd.
  2:{ rewrite (Validate_nil scheme tx Hd). discriminate. }
  rewrite (Validate_by_rules scheme tx d Hd).
  cbn [rules_1_to_4 first_failure].
  destruct (Z.eqb_spec (chainID d) scheme) as [Hc | _]; [| discriminate].
  destruct (byte_eqb_spec (ethereumTxType d) EthereumLegacyTxType)
    as [Ht | _]; [| discriminate].
  destruct (Z.leb_spec (innerBinarySize tx) (1024 * 1024)) as [Hs | _];
    [| discriminate].
  destruct (Z.ltb_spec 0 (gas d)) as [Hg | _]; [| discriminate].
  destruct (EthereumWeiToWavelet (value d)) as [w |] eqn:Hw; [| discriminate].
  cbn [rules_5_to_10 first_failure].
  destruct (Z.leb_spec 0 w) as [Hw0 | _]; [| discriminate].
  destruct (negb ((value d =? 0) && (len (data d) =? 0))) eqn:H6;
    [| discriminate].
  destruct (negb (negb (value d =? 0) && negb (len (data d) =? 0))) eqn:H7;
    [| discriminate].
  destruct (Z.eqb_spec (gasPrice d) EthereumGasPrice) as [Hp | _];
    [| discriminate].
  destruct (to d) as [a |] eqn:Hto; [| discriminate].
  destruct (Z.ltb_spec 0 (nonce d)) as [Hn | _]; [| discriminate].
  intros H. injection H as H1 H2.
  split; [symmetry; exact H1 | split; [symmetry; exact H2 |]].
  destruct d as [l | a' | f]; try discriminate Ht.
  exists l, w. cbn [value data gas gasPrice to nonce] in *.
  split; [reflexivity |]. split; [exact Hc |]. split; [exact Hs |].
  split; [exact Hg |]. split; [exact Hw |]. split; [exact Hw0 |].
  split; [| split; [exact Hp | split; [exists a; exact Hto | exact Hn]]].
  destruct (Z.eqb_spec (EthereumLegacyTx.Value l) 0) as [Ev | Ev];
    destruct (EthereumLegacyTx.Data l) as [| b rest];
    cbn in H6, H7; try discriminate.
  - left. split; [exact Ev | discriminate].
  - right. split; [exact Ev | reflexivity].
Qed.

(** X4.  [Validate] never accepts an access-list or a dynamic-fee payload:
    it reports a foreign chain id, and otherwise the type, whatever the
    other fields are. *)
Theorem Validate_refuses_typed_payloads
    (scheme : Scheme) (tx : EthereumTransaction) (d : EthereumTxData) :
  inner tx = Some d ->
  ethereumTxType d <> EthereumLegacyTxType ->
  Validate scheme tx =
    Some (Failure (if chainID d =? scheme then errNotLegacy
                   else errChainMismatch scheme d), tx).
Proof.
  intros Hd Ht. rewrite (Validate_by_rules scheme tx d Hd).
  cbn [rules_1_to_4 first_failure].
  destruct (chainID d =? scheme); [| reflexivity].
  destruct (byte_eqb_spec (ethereumTxType d) EthereumLegacyTxType);
    [contradiction | reflexivity].
Qed.

(** X5.  The verdict of [Validate] depends on the payload and the recorded
    length only, not on the cached id or the cached sender key. *)
Theorem Validate_ignores_caches
    (scheme : Scheme) (tx : EthereumTransaction)
    (h : option Digest) (pk : option EthereumPublicKey) :
  let tx' := {| inner := inner tx;
                innerBinarySize := innerBinarySize tx;
                id := h;
                senderPK := pk |} in
  (forall e, Validate scheme tx = Some (Failure e, tx) <->
             Validate scheme tx' = Some (Failure e, tx')) /\
  (Validate scheme tx = Some (Success tx, tx) <->
   Validate scheme tx' = Some (Success tx', tx')).
Proof.
  intros tx'. destruct (inner tx) as [d |] eqn:Hd.
  - assert (Hd' : inner tx' = Some d) by reflexivity.
    rewrite (Validate_by_rules scheme tx d Hd),
      (Validate_by_rules scheme tx' d Hd').
    change (rules_1_to_4 scheme tx' d) with (rules_1_to_4 scheme tx d).
    destruct (first_failure (rules_1_to_4 scheme tx d)).
    + split; [intros e0 | ]; split; intros H; try discriminate;
        injection H as H; subst; reflexivity.
    + destruct (EthereumWeiToWavelet (value d)) as [w | err].
      * destruct (first_failure (rules_5_to_10 d w)).
        -- split; [intros e0 | ]; split; intros H; try discriminate;
             injection H as H; subst; reflexivity.
        -- split; [intros e0; split; discriminate |].
           split; reflexivity.
      * split; [intros e0 | ]; split; intros H; try discriminate;
          injection H as H; subst; reflexivity.
  - assert (Hd' : inner tx' = None) by reflexivity.
    rewrite (Validate_nil scheme tx Hd), (Validate_nil scheme tx' Hd').
    split; [intros e |]; split; discriminate.
Qed.

End ValidationFacts.

Section IdentityFacts.
Context {ext : Externals}.

Lemma EncodeCanonical_nil (tx : EthereumTransaction) :
  inner tx = None -> EncodeCanonical tx = None.
Proof. intros Hd. unfold EncodeCanonical. run. rewrite Hd. reflexivity. Qed.

(** X6.  [EncodeCanonical] panics exactly on an envelope without a payload;
    otherwise it answers the canonical bytes of the payload, never an error,
    and leaves the envelope as it was. *)
Theorem EncodeCanonical_outcomes (tx : EthereumTransaction) :
  (EncodeCanonical tx = None <-> inner tx = None) /\
  (forall bytes err tx',
     EncodeCanonical tx = Some ((bytes, err), tx') ->
     err = None /\ tx' = tx /\
     exists d, inner tx = Some d /\ bytes = canonical d).
Proof.
  destruct (inner tx) as [d |] eqn:Hd.
  - rewrite (EncodeCanonical_canonical tx d Hd). split.
    + split; discriminate.
    + intros bytes err tx' H. injection H as <- <- <-.
      split; [reflexivity | split; [reflexivity |]].
      exists d. split; reflexivity.
  - rewrite (EncodeCanonical_nil tx Hd). split; [split; reflexivity | discriminate].
Qed.

(** X7.  [GenerateID] never overwrites a cached id, never answers an error,
    and writes nothing but the id cache; after it the cache is filled, so a
    second call changes nothing. *)
Theorem GenerateID_fills_the_cache_once
    (scheme : Scheme) (tx : EthereumTransaction) :
  (forall h, id tx = Some h -> GenerateID scheme tx = Some (None, tx)) /\
  (forall r tx',
     GenerateID scheme tx = Some (r, tx') ->
     r = None /\
     inner tx' = inner tx /\
     innerBinarySize tx' = innerBinarySize tx /\
     senderPK tx' = senderPK tx /\
     (exists h, id tx' = Some h) /\
     forall scheme', GenerateID scheme' tx' = Some (None, tx')).
Proof.
  assert (Hcached : forall s t h, id t = Some h ->
                      GenerateID s t = Some (None, t)).
  { intros s t h Hh. unfold GenerateID. unfold bind at 1, get at 1.
    rewrite Hh. reflexivity. }
  split; [apply Hcached |].
  intros r tx'. destruct (id tx) as [h |] eqn:Hid.
  - rewrite (Hcached scheme tx h Hid). intros H. injection H as <- <-.
    split; [reflexivity |]. repeat (split; [reflexivity |]).
    split; [exists h; exact Hid |].
    intros scheme'. apply (Hcached scheme' tx h Hid).
  - unfold GenerateID. unfold bind at 1, get at 1. rewrite Hid.
    unfold bind at 1.
    destruct (inner tx) as [d |] eqn:Hd.
    + rewrite (EncodeCanonical_canonical tx d Hd). run.
      intros H. injection H as <- <-. cbn [inner innerBinarySize senderPK id].
      rewrite ?Hd.
      split; [reflexivity |]. repeat (split; [reflexivity |]).
      split; [eexists; reflexivity |].
      intros scheme'. reflexivity.
    + rewrite (EncodeCanonical_nil tx Hd). discriminate.
Qed.

(** With a payload and an empty cache [GetID] hashes the canonical bytes
    and stores the digest. *)
Lemma GetID_computes (scheme : Scheme) (tx : EthereumTransaction)
    (d : EthereumTxData) :
  inner tx = Some d -> id tx = None ->
  GetID scheme tx =
    Some (Success (Keccak256EthereumHash (canonical d)),
          cached tx (Keccak256EthereumHash (canonical d))).
Proof.
  intros Hd Hid.
  unfold GetID, GenerateID. unfold bind at 1, get at 1. rewrite Hid.
  unfold bind at 1. unfold bind at 1, get at 1. rewrite Hid.
  unfold bind at 1. rewrite (EncodeCanonical_canonical tx d Hd).
  run. unfold cached. cbn [id]. reflexivity.
Qed.

(** X8.  [GetID] never answers an error.  It panics exactly when there is
    neither a cached id nor a payload; a cached id is answered as it is,
    whatever the payload is, even when there is none. *)
Theorem GetID_outcomes (scheme : Scheme) (tx : EthereumTransaction) :
  (GetID scheme tx = None <-> id tx = None /\ inner tx = None) /\
  (forall e tx', GetID scheme tx <> Some (Failure e, tx')) /\
  (forall h, id tx = Some h -> GetID scheme tx = Some (Success h, tx)).
Proof.
  assert (Hcached : forall h, id tx = Some h ->
                      GetID scheme tx = Some (Success h, tx)).
  { intros h Hh. unfold GetID. run. rewrite Hh. cbn. rewrite Hh.
    reflexivity. }
  destruct (id tx) as [h |] eqn:Hid.
  - rewrite (Hcached h eq_refl).
    split; [split; [discriminate | intros [H _]; discriminate] |].
    split; [discriminate |].
    intros h' E. injection E as <-. reflexivity.
  - destruct (inner tx) as [d |] eqn:Hd.
    + rewrite (GetID_computes scheme tx d Hd Hid).
      split; [split; [discriminate | intros [_ H]; discriminate] |].
      split; discriminate.
    + assert (E : GetID scheme tx = None).
      { unfold GetID, GenerateID. unfold bind at 1, get at 1. rewrite Hid.
        unfold bind at 1. unfold bind at 1, get at 1. rewrite Hid.
        unfold bind at 1.
        rewrite (EncodeCanonical_nil tx Hd).
        reflexivity. }
      rewrite E.
      split; [split; [intros _; split; reflexivity | reflexivity] |].
      split; discriminate.
Qed.

End IdentityFacts.

Section DecodingFacts.
Context {ext : Externals}.

Lemma DecodeCanonical_success_inv (canonicalData : list byte)
    (tx tx' : EthereumTransaction) :
  DecodeCanonical canonicalData tx = Some (None, tx') ->
  exists b rest d,
    canonicalData = b :: rest /\
    tx' = decoded tx d canonicalData /\
    ethereumTxType d =
      (if 0x7f <? byte_val b then EthereumLegacyTxType else b).
Proof.
  destruct canonicalData as [| b rest]; [discriminate |].
  rewrite DecodeCanonical_cons, decodeTypedCanonical_cons.
  intros H. exists b, rest.
  destruct (0x7f <? byte_val b).
  - destruct (Parse (b :: rest)) as [v |]; [| discriminate].
    destruct (unmarshalFromFastRLP v) as [l |]; [| discriminate].
    injection H as <-. exists (LegacyTx l). repeat split.
  - destruct (byte_eqb_spec b EthereumAccessListTxType) as [-> | _].
    + destruct (AccessListTx_DecodeRLP rest) as [a |]; [| discriminate].
      injection H as <-. exists (AccessListTx a). repeat split.
    + destruct (byte_eqb_spec b EthereumDynamicFeeTxType) as [-> | _];
        [| discriminate].
      destruct (DynamicFeeTx_DecodeRLP rest) as [f |]; [| discriminate].
      injection H as <-. exists (DynamicFeeTx f). repeat split.
Qed.

(** X9.  A successful [DecodeCanonical] sets the payload and records the
    length of the input, and nothing else: the cached id and the cached
    sender key of the receiver stay.  The shape of the payload is fixed by
    the first byte: legacy above 0x7f, otherwise the shape whose tag the
    byte is. *)
Theorem DecodeCanonical_success
    (canonicalData : list byte) (tx tx' : EthereumTransaction) :
  DecodeCanonical canonicalData tx = Some (None, tx') ->
  innerBinarySize tx' = len canonicalData /\
  id tx' = id tx /\
  senderPK tx' = senderPK tx /\
  exists b rest d,
    canonicalData = b :: rest /\
    inner tx' = Some d /\
    ethereumTxType d =
      (if 0x7f <? byte_val b then EthereumLegacyTxType else b).
Proof.
  intros H.
  destruct (DecodeCanonical_success_inv _ _ _ H) as [b [rest [d [E [-> Ht]]]]].
  repeat (split; [reflexivity |]).
  exists b, rest, d. repeat split; assumption.
Qed.

(** X10.  The outcome of [DecodeCanonical] is a function of the bytes: on
    another receiver the same bytes give the same error, or the same payload
    and length, whatever payload the receivers held before. *)
Theorem DecodeCanonical_depends_on_the_bytes_only
    (canonicalData : list byte) (tx1 tx2 : EthereumTransaction) :
  (forall e tx1',
     DecodeCanonical canonicalData tx1 = Some (Some e, tx1') ->
     DecodeCanonical canonicalData tx2 = Some (Some e, tx2)) /\
  (forall tx1',
     DecodeCanonical canonicalData tx1 = Some (None, tx1') ->
     exists tx2',
       DecodeCanonical canonicalData tx2 = Some (None, tx2') /\
       inner tx2' = inner tx1' /\
       innerBinarySize tx2' = innerBinarySize tx1').
Proof.
  destruct canonicalData as [| b rest].
  - split; [| discriminate].
    intros e tx1' H. injection H as <- _. reflexivity.
  - rewrite !DecodeCanonical_cons, !decodeTypedCanonical_cons.
    destruct (0x7f <? byte_val b).
    + destruct (Parse (b :: rest)) as [v | err].
      * destruct (unmarshalFromFastRLP v) as [l | err'].
        -- split; [discriminate |]. intros tx1' H. injection H as <-.
           eexists. split; [reflexivity | split; reflexivity].
        -- split; [| discriminate].
           intros e tx1' H. injection H as <- _. reflexivity.
      * split; [| discriminate].
        intros e tx1' H. injection H as <- _. reflexivity.
    + destruct (Byte.eqb b EthereumAccessListTxType);
        [destruct (AccessListTx_DecodeRLP rest) as [a | err] |
         destruct (Byte.eqb b EthereumDynamicFeeTxType);
           [destruct (DynamicFeeTx_DecodeRLP rest) as [f | err] |]];
        (split;
         [intros e tx1' H;
          first [discriminate H | injection H as <- _; reflexivity]
         | intros tx1' H;
           first [discriminate H
                 | injection H as <-; eexists;
                   split; [reflexivity | split; reflexivity]]]).
Qed.

(** X11.  The id after a decode.  On a receiver whose id cache is filled,
    [GetID] keeps answering the cached digest, not the hash of the payload
    just decoded; on a receiver whose cache is empty it answers the hash of
    the canonical bytes of that payload. *)
Theorem GetID_after_DecodeCanonical
    (canonicalData : list byte) (scheme : Scheme)
    (tx tx' : EthereumTransaction) :
  DecodeCanonical canonicalData tx = Some (None, tx') ->
  (forall h, id tx = Some h -> GetID scheme tx' = Some (Success h, tx')) /\
  (id tx = None ->
   exists d,
     inner tx' = Some d /\
     GetID scheme tx' =
       Some (Success (Keccak256EthereumHash (canonical d)),
             cached tx' (Keccak256EthereumHash (canonical d)))).
Proof.
  intros H.
  destruct (DecodeCanonical_success_inv _ _ _ H) as [b [rest [d [E [-> Ht]]]]].
  split.
  - intros h Hh. unfold GetID. run. cbn [id decoded]. rewrite Hh. cbn.
    rewrite Hh. reflexivity.
  - intros Hid. exists d. split; [reflexivity |].
    apply GetID_computes; [reflexivity | exact Hid].
Qed.

(** X12.  Bytes that start with a type tag never validate: what
    [DecodeCanonical] makes of them is refused by [Validate] on every chain. *)
Theorem typed_bytes_never_validate
    (b : byte) (rest : list byte) (scheme : Scheme)
    (tx tx' : EthereumTransaction) :
  byte_val b <= 0x7f ->
  DecodeCanonical (b :: rest) tx = Some (None, tx') ->
  exists e, Validate scheme tx' = Some (Failure e, tx').
Proof.
  intros Hb H.
  destruct (DecodeCanonical_success_inv _ _ _ H)
    as [b' [rest' [d [E [-> Ht]]]]].
  injection E as <- <-.
  destruct (Z.ltb_spec 0x7f (byte_val b)) as [Hlt | _]; [lia |].
  rewrite (Validate_by_rules scheme (decoded tx d (b :: rest)) d eq_refl).
  cbn [rules_1_to_4 first_failure].
  destruct (chainID d =? scheme); [| eexists; reflexivity].
  destruct (byte_eqb_spec (ethereumTxType d) EthereumLegacyTxType)
    as [Hl | _]; [| eexists; reflexivity].
  exfalso. rewrite Hl in Ht. subst b.
  rewrite DecodeCanonical_cons, decodeTypedCanonical_cons in H.
  discriminate H.
Qed.

(** X13.  [Protected] never panics and never writes.  On an envelope without
    a payload, where the type and the chain id cannot be read, it answers
    true. *)
Theorem Protected_never_panics (tx : EthereumTransaction) :
  (exists p, Protected tx = Some (p, tx)) /\
  (inner tx = None ->
   Protected tx = Some (true, tx) /\ TxType tx = None /\ ChainId tx = None).
Proof.
  unfold Protected, TxType, ChainId. run. split.
  - destruct (inner tx) as [[l | a | f] |]; eexists; reflexivity.
  - intros ->. repeat split.
Qed.

(** X14.  What [Validate] accepts has a positive fee and a positive
    timestamp, the legacy type and the chain id of the node, read through
    the accessors of the transaction interface. *)
Theorem accepted_fee_and_timestamp
    (scheme : Scheme) (tx tx' tx'' : EthereumTransaction) :
  Validate scheme tx = Some (Success tx', tx'') ->
  exists fee timestamp,
    GetFee tx' = Some (fee, tx') /\ 0 < fee /\
    GetTimestamp tx' = Some (timestamp, tx') /\ 0 < timestamp /\
    TxType tx' = Some (EthereumLegacyTxType, tx') /\
    ChainId tx' = Some (scheme, tx').
Proof.
  destruct (inner tx) as [d |] eqn:Hd.
  2:{ rewrite (Validate_nil scheme tx Hd). discriminate. }
  rewrite (Validate_by_rules scheme tx d Hd).
  cbn [rules_1_to_4 first_failure].
  destruct (Z.eqb_spec (chainID d) scheme) as [Hc | _]; [| discriminate].
  destruct (byte_eqb_spec (ethereumTxType d) EthereumLegacyTxType)
    as [Ht | _]; [| discriminate].
  destruct (innerBinarySize tx <=? 1024 * 1024); [| discriminate].
  destruct (Z.ltb_spec 0 (gas d)) as [Hg | _]; [| discriminate].
  destruct (EthereumWeiToWavelet (value d)) as [w |]; [| discriminate].
  cbn [rules_5_to_10 first_failure].
  destruct (0 <=? w); [| discriminate].
  destruct (negb ((value d =? 0) && (len (data d) =? 0))); [| discriminate].
  destruct (negb (negb (value d =? 0) && negb (len (data d) =? 0)));
    [| discriminate].
  destruct (gasPrice d =? EthereumGasPrice); [| discriminate].
  destruct (to d); [| discriminate].
  destruct (Z.ltb_spec 0 (nonce d)) as [Hn | _]; [| discriminate].
  intros H. injection H as <- _.
  exists (gas d), (nonce d).
  unfold GetFee, GetTimestamp. run. rewrite Hd, Ht, Hc.
  repeat split; assumption.
Qed.

(** X15.  The name of a type tag: the three known tags have three different
    names, every other byte has the empty name. *)
Theorem EthereumTxType_String_names (e e' : EthereumTxType) :
  (EthereumTxType_String e = "" <->
     e <> EthereumLegacyTxType /\ e <> EthereumAccessListTxType /\
     e <> EthereumDynamicFeeTxType) /\
  (EthereumTxType_String e = EthereumTxType_String e' ->
   EthereumTxType_String e <> "" -> e = e').
Proof.
  unfold EthereumTxType_String. split.
  - destruct (byte_eqb_spec e EthereumLegacyTxType) as [-> | H0];
      [split; [discriminate | intros [H _]; contradiction] |].
    destruct (byte_eqb_spec e EthereumAccessListTxType) as [-> | H1];
      [split; [discriminate | intros [_ [H _]]; contradiction] |].
    destruct (byte_eqb_spec e EthereumDynamicFeeTxType) as [-> | H2];
      [split; [discriminate | intros [_ [_ H]]; contradiction] |].
    split; [intros _; repeat split; assumption | reflexivity].
  - destruct (byte_eqb_spec e EthereumLegacyTxType) as [-> | H0];
      [| destruct (byte_eqb_spec e EthereumAccessListTxType) as [-> | H1];
         [| destruct (byte_eqb_spec e EthereumDynamicFeeTxType)
              as [-> | H2]]];
      (destruct (byte_eqb_spec e' EthereumLegacyTxType) as [-> | H0'];
       [| destruct (byte_eqb_spec e' EthereumAccessListTxType) as [-> | H1'];
          [| destruct (byte_eqb_spec e' EthereumDynamicFeeTxType)
               as [-> | H2']]]);
      intros E Hne; try reflexivity; try discriminate E;
      try (exfalso; apply Hne; reflexivity).
Qed.

End DecodingFacts.

Section SenderFacts.
Context {ext : Externals} {sgn : Signing}.

(** [Verify] by cases: a cached key is answered; otherwise the signer made
    for the chain id of the payload is asked, and its key is stored. *)
Lemma Verify_cases (tx : EthereumTransaction) :
  Verify tx =
    match senderPK tx with
    | Some pk => Some (Success pk, tx)
    | None =>
        match inner tx with
        | None => None
        | Some d =>
            match SenderPK (MakeEthereumSigner (chainID d)) tx with
            | Failure err =>
                Some (Failure (errors_Wrap err
                        (Lit "failed to verify EthereumTransaction")), tx)
            | Success pk => Some (Success pk, keyed tx pk)
            end
        end
    end.
Proof.
  unfold Verify, threadSafeGetSenderPK, threadSafeSetSenderPK. run.
  destruct (senderPK tx) as [pk |]; [reflexivity |].
  destruct (inner tx) as [d |]; [| reflexivity].
  destruct (SenderPK (MakeEthereumSigner (chainID d)) tx); reflexivity.
Qed.

Lemma Verify_cached (tx : EthereumTransaction) (pk : EthereumPublicKey) :
  senderPK tx = Some pk -> Verify tx = Some (Success pk, tx).
Proof. intros Hpk. rewrite Verify_cases, Hpk. reflexivity. Qed.

Lemma Verify_stores (tx tx' : EthereumTransaction) (pk : EthereumPublicKey) :
  Verify tx = Some (Success pk, tx') -> senderPK tx' = Some pk.
Proof.
  rewrite Verify_cases.
  destruct (senderPK tx) as [pk0 |] eqn:Hpk.
  - intros H. injection H as <- <-. exact Hpk.
  - destruct (inner tx) as [d |]; [| discriminate].
    destruct (SenderPK (MakeEthereumSigner (chainID d)) tx);
      [| discriminate].
    intros H. injection H as <- <-. reflexivity.
Qed.

(** X16.  [Verify] asks the signer at most once per envelope.  A cached key
    is answered without the signer, even on an envelope without a payload.
    A success stores the key and writes nothing else, and from then on
    [Verify] answers that key; a failure wraps the signer's error and leaves
    the envelope as it was.  [Verify] panics exactly when there is neither a
    cached key nor a payload. *)
Theorem Verify_memoizes (tx : EthereumTransaction) :
  (forall pk, senderPK tx = Some pk -> Verify tx = Some (Success pk, tx)) /\
  (forall pk tx',
     Verify tx = Some (Success pk, tx') ->
     Verify tx' = Some (Success pk, tx') /\
     senderPK tx' = Some pk /\
     inner tx' = inner tx /\
     innerBinarySize tx' = innerBinarySize tx /\
     id tx' = id tx) /\
  (forall e tx',
     Verify tx = Some (Failure e, tx') ->
     tx' = tx /\ senderPK tx = None /\
     exists cause,
       e = errors_Wrap cause (Lit "failed to verify EthereumTransaction")) /\
  (Verify tx = None <-> senderPK tx = None /\ inner tx = None).
Proof.
  rewrite (Verify_cases tx).
  destruct (senderPK tx) as [pk0 |] eqn:Hpk.
  - split; [intros pk E; injection E as <-; reflexivity |].
    split; [| split].
    + intros pk tx' H. injection H as <- <-.
      rewrite (Verify_cases tx), Hpk. repeat split.
    + discriminate.
    + split; [discriminate | intros [H _]; discriminate].
  - split; [discriminate |].
    destruct (inner tx) as [d |] eqn:Hd.
    + destruct (SenderPK (MakeEthereumSigner (chainID d)) tx) as [pk0 | err].
      * split; [| split].
        -- intros pk tx' H. injection H as <- <-.
           rewrite (Verify_cases (keyed tx pk0)). cbn [keyed senderPK inner].
           repeat split. exact Hd.
        -- discriminate.
        -- split; [discriminate | intros [_ H]; discriminate].
      * split; [discriminate | split].
        -- intros e tx' H. injection H as <- <-.
           repeat split. exists err. reflexivity.
        -- split; [discriminate | intros [_ H]; discriminate].
    + split; [discriminate | split; [discriminate |]].
      split; [intros _; split; reflexivity | reflexivity].
Qed.

(** X17.  [From] and [FromPK] are two readings of [Verify]: they succeed,
    fail and panic together and leave the same envelope; the address of
    [From] is the address of the key of [FromPK], and [GetSender] is [From]
    on every chain. *)
Theorem From_is_the_address_of_FromPK
    (scheme : Scheme) (tx : EthereumTransaction) :
  GetSender scheme tx = From tx /\
  (forall a tx',
     From tx = Some (Success a, tx') ->
     exists pk,
       FromPK tx = Some (Success pk, tx') /\
       a = PK_EthereumAddress pk /\
       From tx' = Some (Success a, tx')) /\
  (forall e tx',
     From tx = Some (Failure e, tx') <-> FromPK tx = Some (Failure e, tx')) /\
  (From tx = None <-> FromPK tx = None).
Proof.
  split; [reflexivity |].
  unfold From, FromPK. unfold bind.
  destruct (Verify tx) as [[[pk | err] tx1] |] eqn:Hv; unfold ret.
  - split; [| split; [intros e tx'; split; discriminate |
                      split; discriminate]].
    intros a tx' H. injection H as <- <-.
    exists pk. split; [reflexivity | split; [reflexivity |]].
    rewrite (Verify_cached tx1 pk (Verify_stores tx tx1 pk Hv)). reflexivity.
  - split; [discriminate |].
    split; [intros e tx'; split; intros H; exact H | split; discriminate].
  - split; [discriminate |].
    split; [intros e tx'; split; discriminate | split; reflexivity].
Qed.

(** X18.  The sender after a decode.  [DecodeCanonical] keeps the cached
    sender key of its receiver, so on a receiver that was verified before,
    [Verify] and [From] answer the key and the address cached then, without
    the signer. *)
Theorem sender_after_DecodeCanonical
    (canonicalData : list byte) (tx tx' : EthereumTransaction)
    (pk : EthereumPublicKey) :
  DecodeCanonical canonicalData tx = Some (None, tx') ->
  senderPK tx = Some pk ->
  Verify tx' = Some (Success pk, tx') /\
  From tx' = Some (Success (PK_EthereumAddress pk), tx').
Proof.
  intros H Hpk.
  destruct (DecodeCanonical_success_inv _ _ _ H) as [b [rest [d [E [-> Ht]]]]].
  assert (Hv : Verify (decoded tx d canonicalData) =
                 Some (Success pk, decoded tx d canonicalData)).
  { rewrite Verify_cases. cbn [decoded senderPK]. rewrite Hpk. reflexivity. }
  split; [exact Hv |].
  unfold From, bind. rewrite Hv. reflexivity.
Qed.

Lemma ToProtobufSigned_canonical (scheme : Scheme)
    (tx : EthereumTransaction) (d : EthereumTxData) :
  inner tx = Some d ->
  ToProtobufSigned scheme tx =
    Some (Success
            {| g.Transaction :=
                 Some (g.SignedTransaction_EthereumTransaction (canonical d));
               g.Proofs := [] |}, tx).
Proof.
  intros Hd. unfold ToProtobufSigned. unfold bind at 1.
  rewrite (EncodeCanonical_canonical tx d Hd). reflexivity.
Qed.

Lemma ToProtobufSigned_nil (scheme : Scheme) (tx : EthereumTransaction) :
  inner tx = None -> ToProtobufSigned scheme tx = None.
Proof.
  intros Hd. unfold ToProtobufSigned. unfold bind at 1.
  rewrite (EncodeCanonical_nil tx Hd). reflexivity.
Qed.

(** X19.  [ToProtobufSigned] never answers an error: it panics exactly on an
    envelope without a payload, and otherwise wraps the bytes that
    [MerkleBytes] answers, with no proofs, and leaves the envelope as it
    was. *)
Theorem ToProtobufSigned_carries_MerkleBytes
    (scheme scheme' : Scheme) (tx : EthereumTransaction) :
  (ToProtobufSigned scheme tx = None <-> inner tx = None) /\
  (forall e tx', ToProtobufSigned scheme tx <> Some (Failure e, tx')) /\
  (forall signed tx',
     ToProtobufSigned scheme tx = Some (Success signed, tx') ->
     tx' = tx /\
     exists canonicalData,
       MerkleBytes scheme' tx = Some ((canonicalData, None), tx) /\
       g.Transaction signed =
         Some (g.SignedTransaction_EthereumTransaction canonicalData) /\
       g.Proofs signed = []).
Proof.
  unfold MerkleBytes.
  destruct (inner tx) as [d |] eqn:Hd.
  - rewrite (ToProtobufSigned_canonical scheme tx d Hd).
    rewrite (EncodeCanonical_canonical tx d Hd).
    split; [split; discriminate |]. split; [discriminate |].
    intros signed tx' H. injection H as <- <-.
    split; [reflexivity |]. exists (canonical d). repeat split.
  - rewrite (ToProtobufSigned_nil scheme tx Hd).
    split; [split; reflexivity |]. split; discriminate.
Qed.

(** X20.  [UnmarshalSignedFromProtobuf] never panics.  When it fails,
    because the reader failed or because the transaction read is of another
    type, the envelope stays as it was; when it succeeds the envelope is the
    one read, caches included, whatever the receiver held. *)
Theorem UnmarshalSignedFromProtobuf_outcomes
    (bytes : list byte) (tx : EthereumTransaction) :
  UnmarshalSignedFromProtobuf bytes tx <> None /\
  (forall e tx',
     UnmarshalSignedFromProtobuf bytes tx = Some (Some e, tx') ->
     tx' = tx /\
     forall ethTx,
       SignedTxFromProtobuf bytes <> Success (EthereumTransactionPtr ethTx)) /\
  (forall tx',
     UnmarshalSignedFromProtobuf bytes tx = Some (None, tx') ->
     SignedTxFromProtobuf bytes = Success (EthereumTransactionPtr tx')).
Proof.
  unfold UnmarshalSignedFromProtobuf.
  destruct (SignedTxFromProtobuf bytes) as [[ethTx | goType] | err]; run.
  - split; [discriminate |]. split; [discriminate |].
    intros tx' H. injection H as <-. reflexivity.
  - split; [discriminate |]. split; [| discriminate].
    intros e tx' H. injection H as _ <-. split; [reflexivity | discriminate].
  - split; [discriminate |]. split; [| discriminate].
    intros e tx' H. injection H as _ <-. split; [reflexivity | discriminate].
Qed.

End SenderFacts.

Section WireFacts.
Context {ext : Externals} {valid : EthereumTxData -> Prop}.
Context {laws : CodecLaws ext valid}.

(** X21.  The id survives the wire.  The bytes that [MerkleBytes] answers
    for an envelope with a valid payload decode, on a receiver whose id
    cache is empty, to an envelope with the same id and the same canonical
    bytes; the length recorded is the length of these bytes. *)
Theorem id_survives_the_wire
    (scheme scheme' : Scheme) (tx rx : EthereumTransaction)
    (d : EthereumTxData) :
  inner tx = Some d -> valid d -> id tx = None -> id rx = None ->
  exists canonicalData h tx1 rx1 rx2,
    MerkleBytes scheme tx = Some ((canonicalData, None), tx) /\
    GetID scheme tx = Some (Success h, tx1) /\
    DecodeCanonical canonicalData rx = Some (None, rx1) /\
    innerBinarySize rx1 = len canonicalData /\
    EncodeCanonical rx1 = Some ((canonicalData, None), rx1) /\
    GetID scheme' rx1 = Some (Success h, rx2).
Proof.
  intros Hd Hv Hid Hrx.
  exists (canonical d), (Keccak256EthereumHash (canonical d)),
    (cached tx (Keccak256EthereumHash (canonical d))),
    (decoded rx d (canonical d)),
    (cached (decoded rx d (canonical d))
       (Keccak256EthereumHash (canonical d))).
  split; [apply EncodeCanonical_canonical; exact Hd |].
  split; [apply GetID_computes; assumption |].
  split; [apply DecodeCanonical_canonical; exact Hv |].
  split; [reflexivity |].
  split; [apply EncodeCanonical_canonical; reflexivity |].
  apply GetID_computes; [reflexivity | exact Hrx].
Qed.

End WireFacts.

Section MoreFacts.
Context {ext : Externals}.

(** X22.  Every error of [Validate] is built by the [errs] package: a
    transaction-validation error, a fee-validation error or a
    non-positive-amount error in waves; none wraps another error. *)
Theorem Validate_error_kinds
    (scheme : Scheme) (tx tx' : EthereumTransaction) (e : error) :
  Validate scheme tx = Some (Failure e, tx') ->
  ((exists msg, e = NewTxValidationError msg) \/
   (exists msg, e = NewFeeValidation msg) \/
   (exists amount, e = NewNonPositiveAmount amount "waves")) /\
  errors_Cause e = e.
Proof.
  destruct (inner tx) as [d |] eqn:Hd.
  2:{ rewrite (Validate_nil scheme tx Hd). discriminate. }
  rewrite (Validate_by_rules scheme tx d Hd).
  cbn [rules_1_to_4 rules_5_to_10 first_failure].
  unfold errChainMismatch, errNotLegacy, errOversized, errInsufficientFee,
    errCancellation, errDataAndValue, errGasPrice, errContractCreation,
    errTimestamp.
  repeat match goal with
         | |- context [if ?b then _ else _] => destruct b
         | |- context [match EthereumWeiToWavelet ?v with _ => _ end] =>
             destruct (EthereumWeiToWavelet v)
         | |- context [match to d with _ => _ end] => destruct (to d)
         end;
    intros H; try discriminate H; injection H as <- _;
    (split; [| reflexivity]);
    first [ left; eexists; reflexivity
          | right; left; eexists; reflexivity
          | right; right; eexists; reflexivity ].
Qed.

(** X23.  The id is stable: whatever [GetID] answers it answers again on the
    envelope it leaves, on every chain, and it writes nothing but the id
    cache. *)
Theorem GetID_is_stable
    (scheme scheme' : Scheme) (tx tx' : EthereumTransaction)
    (r : result (list byte)) :
  GetID scheme tx = Some (r, tx') ->
  GetID scheme' tx' = Some (r, tx') /\
  inner tx' = inner tx /\
  innerBinarySize tx' = innerBinarySize tx /\
  senderPK tx' = senderPK tx.
Proof.
  assert (Hcached : forall s t h, id t = Some h ->
                      GetID s t = Some (Success h, t)).
  { intros s t h Hh. unfold GetID. run. rewrite Hh. cbn. rewrite Hh.
    reflexivity. }
  destruct (id tx) as [h |] eqn:Hid.
  - rewrite (Hcached scheme tx h Hid). intros H. injection H as <- <-.
    split; [apply Hcached; exact Hid | repeat split].
  - destruct (inner tx) as [d |] eqn:Hd.
    + rewrite (GetID_computes scheme tx d Hd Hid).
      intros H. injection H as <- <-.
      split; [apply Hcached; reflexivity |].
      cbn [cached inner innerBinarySize senderPK]. rewrite Hd.
      repeat split.
    + unfold GetID, GenerateID. unfold bind at 1, get at 1. rewrite Hid.
      unfold bind at 1. unfold bind at 1, get at 1. rewrite Hid.
      unfold bind at 1. rewrite (EncodeCanonical_nil tx Hd). discriminate.
Qed.

End MoreFacts.

Section EncodingFacts.
Context {ext : Externals} {valid : EthereumTxData -> Prop}.
Context {laws : CodecLaws ext valid}.

(** X24.  The encoder and the dispatch of the decoder agree on the first
    byte.  The canonical bytes of a valid payload are not empty; their first
    byte is above 0x7f exactly for the legacy shape, and for the other
    shapes it is the type tag, followed by the serialized payload, which is
    what [encodeTypedCanonical] answers. *)
Theorem canonical_first_byte
    (tx : EthereumTransaction) (d : EthereumTxData) :
  inner tx = Some d -> valid d ->
  exists b rest,
    EncodeCanonical tx = Some ((b :: rest, None), tx) /\
    (0x7f <? byte_val b) =
      Byte.eqb (ethereumTxType d) EthereumLegacyTxType /\
    (ethereumTxType d <> EthereumLegacyTxType ->
     b = ethereumTxType d /\
     rest = MarshalTo (marshalToFastRLP d) [] /\
     encodeTypedCanonical tx = Some (b :: rest, tx)).
Proof.
  intros Hd Hv. rewrite (EncodeCanonical_canonical tx d Hd).
  assert (Ht : encodeTypedCanonical tx =
                 Some (ethereumTxType d :: MarshalTo (marshalToFastRLP d) [],
                       tx)).
  { destruct tx as [i size c pk]. cbn [inner] in Hd. subst i.
    unfold encodeTypedCanonical. run. cbn [inner app].
    rewrite MarshalTo_appends. reflexivity. }
  unfold canonical. destruct d as [l | a | f]; cbn [ethereumTxType] in *.
  - destruct (legacy_leading_byte l Hv) as [b [rest [E Hb]]].
    exists b, rest.
    change (Byte.eqb EthereumLegacyTxType EthereumLegacyTxType) with true.
    cbv iota. rewrite E.
    split; [reflexivity |]. split; [| intros H; contradiction H; reflexivity].
    destruct (Z.ltb_spec 0x7f (byte_val b)); [reflexivity | lia].
  - exists EthereumAccessListTxType,
      (MarshalTo (marshalToFastRLP (AccessListTx a)) []).
    change (Byte.eqb EthereumAccessListTxType EthereumLegacyTxType) with false.
    cbv iota. rewrite MarshalTo_appends. cbn [app].
    split; [reflexivity |]. split; [reflexivity |].
    intros _. split; [reflexivity | split; [reflexivity | exact Ht]].
  - exists EthereumDynamicFeeTxType,
      (MarshalTo (marshalToFastRLP (DynamicFeeTx f)) []).
    change (Byte.eqb EthereumDynamicFeeTxType EthereumLegacyTxType) with false.
    cbv iota. rewrite MarshalTo_appends. cbn [app].
    split; [reflexivity |]. split; [reflexivity |].
    intros _. split; [reflexivity | split; [reflexivity | exact Ht]].
Qed.

End EncodingFacts.

(** ** The further properties on the example envelopes *)

#[local] Existing Instance sampleSigning.

Lemma valid_scenarioD : Model.valid (AccessListTx scenarioD).
Proof.
  split; [| vm_compute; reflexivity].
  cbn. unfold Model.uint64_ok, Model.to_ok, Model.accessList_ok.
  repeat split; try lia; try reflexivity.
  repeat constructor.
Qed.

Lemma canonical_scenarioD :
  canonical (AccessListTx scenarioD) =
    x01 :: MarshalTo (marshalToFastRLP (AccessListTx scenarioD)) [].
Proof. reflexivity. Qed.

(** Scenario A is accepted, so it passes the rules. *)
Lemma scenarioA_passes_every_rule :
  exists l wavelets,
    inner (received (LegacyTx scenarioA)) = Some (LegacyTx l) /\
    EthereumWeiToWavelet (EthereumLegacyTx.Value l) = Success wavelets /\
    0 <= wavelets /\
    0 < EthereumLegacyTx.Gas l /\
    0 < EthereumLegacyTx.Nonce l.
Proof.
  destruct (Validate_accepts_only_what_passes_every_rule 87
              (received (LegacyTx scenarioA)) (received (LegacyTx scenarioA))
              (received (LegacyTx scenarioA)))
    as (_ & _ & l & w & Hi & _ & _ & Hg & Hw & Hw0 & _ & _ & _ & Hn).
  - vm_compute. reflexivity.
  - exists l, w. repeat split; assumption.
Defined.

(** Scenario D, an access-list payload for chain 87, is refused on chain 87
    for its type. *)
Lemma Validate_refuses_scenarioD :
  Validate 87 (received (AccessListTx scenarioD)) =
    Some (Failure errNotLegacy, received (AccessListTx scenarioD)).
Proof.
  apply (Validate_refuses_typed_payloads 87
           (received (AccessListTx scenarioD)) (AccessListTx scenarioD));
    [reflexivity | discriminate].
Defined.

(** The bytes [EncodeCanonical] answers for scenario A are the canonical
    bytes of the payload the envelope holds. *)
Lemma EncodeCanonical_scenarioA :
  exists d,
    inner (received (LegacyTx scenarioA)) = Some d /\
    canonical (LegacyTx scenarioA) = canonical d.
Proof.
  destruct (proj2 (EncodeCanonical_outcomes (received (LegacyTx scenarioA)))
              (canonical (LegacyTx scenarioA)) None
              (received (LegacyTx scenarioA)))
    as (_ & _ & d & Hd & Hb).
  - apply EncodeCanonical_canonical. reflexivity.
  - exists d. split; assumption.
Defined.

(** A cached id is kept by [GenerateID] and answered by [GetID], here on an
    envelope without a payload. *)
Lemma GenerateID_keeps_a_cached_id :
  GenerateID 87 (cached fresh [x2a]) = Some (None, cached fresh [x2a]).
Proof.
  apply (proj1 (GenerateID_fills_the_cache_once 87 (cached fresh [x2a]))
           [x2a]).
  reflexivity.
Defined.

Lemma GetID_answers_a_cached_id :
  GetID 87 (cached fresh [x2a]) = Some (Success [x2a], cached fresh [x2a]).
Proof.
  apply (proj2 (proj2 (GetID_outcomes 87 (cached fresh [x2a]))) [x2a]).
  reflexivity.
Defined.

(** Scenario D decodes to an access-list payload, the shape of its first
    byte. *)
Lemma DecodeCanonical_success_scenarioD :
  innerBinarySize (received (AccessListTx scenarioD)) =
    len (canonical (AccessListTx scenarioD)) /\
  id (received (AccessListTx scenarioD)) = id fresh /\
  senderPK (received (AccessListTx scenarioD)) = senderPK fresh /\
  exists b rest d,
    canonical (AccessListTx scenarioD) = b :: rest /\
    inner (received (AccessListTx scenarioD)) = Some d /\
    ethereumTxType d =
      (if 0x7f <? byte_val b then EthereumLegacyTxType else b).
Proof.
  apply (DecodeCanonical_success (canonical (AccessListTx scenarioD)) fresh).
  apply received_is_decoded. exact valid_scenarioD.
Defined.

(** The tag 0x03 gets the same error on two receivers. *)
Lemma DecodeCanonical_unknown_tag_on_two_receivers :
  DecodeCanonical [x03] (received (LegacyTx scenarioA)) =
    Some (Some (wrapTyped ErrTxTypeNotSupported),
          received (LegacyTx scenarioA)).
Proof.
  apply (proj1 (DecodeCanonical_depends_on_the_bytes_only [x03] fresh
                  (received (LegacyTx scenarioA)))
           (wrapTyped ErrTxTypeNotSupported) fresh).
  reflexivity.
Defined.

(** Scenario A decoded into an envelope whose id cache is filled: the id
    stays the cached one. *)
Lemma GetID_stale_after_DecodeCanonical :
  GetID 87 (decoded (cached fresh [x2a]) (LegacyTx scenarioA)
              (canonical (LegacyTx scenarioA))) =
    Some (Success [x2a],
          decoded (cached fresh [x2a]) (LegacyTx scenarioA)
            (canonical (LegacyTx scenarioA))).
Proof.
  apply (proj1 (GetID_after_DecodeCanonical (canonical (LegacyTx scenarioA))
                  87 (cached fresh [x2a])
                  (decoded (cached fresh [x2a]) (LegacyTx scenarioA)
                     (canonical (LegacyTx scenarioA)))
                  (DecodeCanonical_canonical (laws := model_laws)
                     (LegacyTx scenarioA) (cached fresh [x2a])
                     valid_scenarioA))
           [x2a]).
  reflexivity.
Defined.

(** The canonical bytes of scenario D start with the tag 0x01; what they
    decode to is refused on chain 87. *)
Lemma scenarioD_bytes_never_validate :
  exists e,
    Validate 87 (received (AccessListTx scenarioD)) =
      Some (Failure e, received (AccessListTx scenarioD)).
Proof.
  apply (typed_bytes_never_validate x01
           (MarshalTo (marshalToFastRLP (AccessListTx scenarioD)) [])
           87 fresh).
  - vm_compute. discriminate.
  - rewrite <- canonical_scenarioD.
    apply received_is_decoded. exact valid_scenarioD.
Defined.

(** [Protected] on the envelope without a payload. *)
Lemma Protected_on_fresh :
  Protected fresh = Some (true, fresh) /\
  TxType fresh = None /\ ChainId fresh = None.
Proof.
  apply (proj2 (Protected_never_panics fresh)). reflexivity.
Defined.

(** The fee and the timestamp of scenario A. *)
Lemma scenarioA_fee_and_timestamp :
  exists fee timestamp,
    GetFee (received (LegacyTx scenarioA)) =
      Some (fee, received (LegacyTx scenarioA)) /\
    0 < fee /\
    GetTimestamp (received (LegacyTx scenarioA)) =
      Some (timestamp, received (LegacyTx scenarioA)) /\
    0 < timestamp /\
    TxType (received (LegacyTx scenarioA)) =
      Some (EthereumLegacyTxType, received (LegacyTx scenarioA)) /\
    ChainId (received (LegacyTx scenarioA)) =
      Some (87, received (LegacyTx scenarioA)).
Proof.
  apply (accepted_fee_and_timestamp 87 (received (LegacyTx scenarioA))
           (received (LegacyTx scenarioA)) (received (LegacyTx scenarioA))).
  vm_compute. reflexivity.
Defined.

(** Two tags with the same name that is not empty. *)
Lemma EthereumTxType_String_access_list :
  EthereumAccessListTxType = x01.
Proof.
  apply (proj2 (EthereumTxType_String_names EthereumAccessListTxType x01));
    [reflexivity | discriminate].
Defined.

(** The sample signer on scenario A: the first [Verify] stores the key, the
    second answers it. *)
Lemma Verify_twice_scenarioA :
  Verify (keyed (received (LegacyTx scenarioA)) sampleKey) =
    Some (Success sampleKey, keyed (received (LegacyTx scenarioA)) sampleKey)
  /\ senderPK (keyed (received (LegacyTx scenarioA)) sampleKey) =
       Some sampleKey
  /\ inner (keyed (received (LegacyTx scenarioA)) sampleKey) =
       inner (received (LegacyTx scenarioA))
  /\ innerBinarySize (keyed (received (LegacyTx scenarioA)) sampleKey) =
       innerBinarySize (received (LegacyTx scenarioA))
  /\ id (keyed (received (LegacyTx scenarioA)) sampleKey) =
       id (received (LegacyTx scenarioA)).
Proof.
  apply (proj1 (proj2 (Verify_memoizes (received (LegacyTx scenarioA))))
           sampleKey (keyed (received (LegacyTx scenarioA)) sampleKey)).
  reflexivity.
Defined.

(** The address of scenario A is the address of its key. *)
Lemma From_scenarioA :
  exists pk,
    FromPK (received (LegacyTx scenarioA)) =
      Some (Success pk, keyed (received (LegacyTx scenarioA)) sampleKey) /\
    firstn 20 sampleKey = PK_EthereumAddress pk /\
    From (keyed (received (LegacyTx scenarioA)) sampleKey) =
      Some (Success (firstn 20 sampleKey),
            keyed (received (LegacyTx scenarioA)) sampleKey).
Proof.
  apply (proj1 (proj2 (From_is_the_address_of_FromPK 87
                         (received (LegacyTx scenarioA))))
           (firstn 20 sampleKey)
           (keyed (received (LegacyTx scenarioA)) sampleKey)).
  reflexivity.
Defined.

(** Scenario D decoded into an envelope that was verified before: the sender
    stays the cached one, though the sample signer refuses scenario D. *)
Lemma sender_stale_after_DecodeCanonical :
  Verify (decoded (keyed fresh sampleKey) (AccessListTx scenarioD)
            (canonical (AccessListTx scenarioD))) =
    Some (Success sampleKey,
          decoded (keyed fresh sampleKey) (AccessListTx scenarioD)
            (canonical (AccessListTx scenarioD))) /\
  From (decoded (keyed fresh sampleKey) (AccessListTx scenarioD)
          (canonical (AccessListTx scenarioD))) =
    Some (Success (PK_EthereumAddress sampleKey),
          decoded (keyed fresh sampleKey) (AccessListTx scenarioD)
            (canonical (AccessListTx scenarioD))).
Proof.
  apply (sender_after_DecodeCanonical (canonical (AccessListTx scenarioD))
           (keyed fresh sampleKey)).
  - apply (DecodeCanonical_canonical (laws := model_laws)).
    exact valid_scenarioD.
  - reflexivity.
Defined.

(** The signed form of scenario A carries the bytes of [MerkleBytes]. *)
Lemma ToProtobufSigned_scenarioA :
  exists canonicalData,
    MerkleBytes 84 (received (LegacyTx scenarioA)) =
      Some ((canonicalData, None), received (LegacyTx scenarioA)) /\
    ToProtobufSigned 87 (received (LegacyTx scenarioA)) =
      Some (Success
              {| g.Transaction :=
                   Some (g.SignedTransaction_EthereumTransaction
                           canonicalData);
                 g.Proofs := [] |},
            received (LegacyTx scenarioA)).
Proof.
  destruct (proj2 (proj2 (ToProtobufSigned_carries_MerkleBytes 87 84
                            (received (LegacyTx scenarioA))))
              _ _
              (ToProtobufSigned_canonical 87 (received (LegacyTx scenarioA))
                 (LegacyTx scenarioA) eq_refl))
    as (_ & c & Hm & Ht & _).
  cbn [g.Transaction] in Ht. injection Ht as <-.
  exists (canonical (LegacyTx scenarioA)).
  split; [exact Hm | apply ToProtobufSigned_canonical; reflexivity].
Defined.

(** The sample reader: a transaction of another type leaves the envelope, an
    Ethereum one replaces it. *)
Lemma UnmarshalSignedFromProtobuf_sample :
  SignedTxFromProtobuf [x01] =
    Success (EthereumTransactionPtr (received (LegacyTx scenarioA))).
Proof.
  apply (proj2 (proj2 (UnmarshalSignedFromProtobuf_outcomes [x01]
                         (cached fresh [x2a])))).
  reflexivity.
Defined.

(** Scenario A over the wire. *)
Lemma id_survives_the_wire_scenarioA :
  exists canonicalData h tx1 rx1 rx2,
    MerkleBytes 87 (received (LegacyTx scenarioA)) =
      Some ((canonicalData, None), received (LegacyTx scenarioA)) /\
    GetID 87 (received (LegacyTx scenarioA)) = Some (Success h, tx1) /\
    DecodeCanonical canonicalData fresh = Some (None, rx1) /\
    innerBinarySize rx1 = len canonicalData /\
    EncodeCanonical rx1 = Some ((canonicalData, None), rx1) /\
    GetID 84 rx1 = Some (Success h, rx2).
Proof.
  apply (id_survives_the_wire (laws := model_laws) 87 84
           (received (LegacyTx scenarioA)) fresh (LegacyTx scenarioA));
    [reflexivity | exact valid_scenarioA | reflexivity | reflexivity].
Defined.

(** A refusal of [Validate] and its kind. *)
Lemma Validate_error_kind_of_a_cancellation :
  ((exists msg, errCancellation = NewTxValidationError msg) \/
   (exists msg, errCancellation = NewFeeValidation msg) \/
   (exists amount, errCancellation = NewNonPositiveAmount amount "waves")) /\
  errors_Cause errCancellation = errCancellation.
Proof.
  apply (Validate_error_kinds 87 (received (LegacyTx cancellation))
           (received (LegacyTx cancellation)) errCancellation).
  reflexivity.
Defined.

(** The id of scenario A, asked twice. *)
Lemma GetID_twice_scenarioA :
  GetID 84 (cached (received (LegacyTx scenarioA))
              (Keccak256EthereumHash (canonical (LegacyTx scenarioA)))) =
    Some (Success (Keccak256EthereumHash (canonical (LegacyTx scenarioA))),
          cached (received (LegacyTx scenarioA))
            (Keccak256EthereumHash (canonical (LegacyTx scenarioA)))) /\
  inner (cached (received (LegacyTx scenarioA))
           (Keccak256EthereumHash (canonical (LegacyTx scenarioA)))) =
    inner (received (LegacyTx scenarioA)) /\
  innerBinarySize
    (cached (received (LegacyTx scenarioA))
       (Keccak256EthereumHash (canonical (LegacyTx scenarioA)))) =
    innerBinarySize (received (LegacyTx scenarioA)) /\
  senderPK (cached (received (LegacyTx scenarioA))
              (Keccak256EthereumHash (canonical (LegacyTx scenarioA)))) =
    senderPK (received (LegacyTx scenarioA)).
Proof.
  apply (GetID_is_stable 87 84 (received (LegacyTx scenarioA))).
  apply GetID_computes; reflexivity.
Defined.

(** The canonical bytes of scenario D start with its tag. *)
Lemma canonical_first_byte_scenarioD :
  exists b rest,
    EncodeCanonical (received (AccessListTx scenarioD)) =
      Some ((b :: rest, None), received (AccessListTx scenarioD)) /\
    (0x7f <? byte_val b) =
      Byte.eqb (ethereumTxType (AccessListTx scenarioD))
        EthereumLegacyTxType /\
    (ethereumTxType (AccessListTx scenarioD) <> EthereumLegacyTxType ->
     b = ethereumTxType (AccessListTx scenarioD) /\
     rest = MarshalTo (marshalToFastRLP (AccessListTx scenarioD)) [] /\
     encodeTypedCanonical (received (AccessListTx scenarioD)) =
       Some (b :: rest, received (AccessListTx scenarioD))).
Proof.
  apply (canonical_first_byte (laws := model_laws)
           (received (AccessListTx scenarioD)) (AccessListTx scenarioD));
    [reflexivity | exact valid_scenarioD].
Defined.
